(** * pictopy: the hash-indexing and reconciliation loop of [modules.py]

    A shallow embedding of [src/modules.py]: the Scanner ([isImg],
    [imgPaths]), the Hasher ([genHash]), the classifier stub
    ([classifyImg]), the store layer ([executeQuery], [hashExist]), the
    Indexer ([processImgs]) and the Reconciler ([detectFileWithHash],
    [fileByClass]), with the entry point [classifyPath]; and of
    [StreamToLogger.write] of [src/utils/log.py].

    Conventions.
    - A Python [str] is a [string]; paths are POSIX paths.
    - A generator is the list of the items it has still to yield; a function
      that draws from a generator returns what is left of it.
    - An exception is the [Raise] case of [outcome]; code that touches the
      connection lives in the monad [M], which keeps the connection's rows on
      both the normal and the exceptional exit.
    - [hashlib.md5] is a parameter of the development; the file system and
      the [rglob] enumeration are data ([filesystem]). *)

From Stdlib Require Import List String Ascii Bool ZArith NArith Lia Permutation.
From Stdlib Require Strings.Byte.
Import ListNotations.

Local Open Scope string_scope.
Local Open Scope Z_scope.

(** ** Python string primitives *)

Module PyStr.

(** [s[:k]] and [s[k:]] for [0 <= k]. *)
Fixpoint take (k : nat) (s : string) : string :=
  match k, s with
  | S k', String c r => String c (take k' r)
  | _, _ => EmptyString
  end.

Fixpoint drop (k : nat) (s : string) : string :=
  match k, s with
  | S k', String _ r => drop k' r
  | _, _ => s
  end.

(** [s[i:i+1]]: the one-character slice, empty when [i] is out of range. *)
Definition slice1 (s : string) (i : Z) : string :=
  if i <? 0 then EmptyString else take 1 (drop (Z.to_nat i) s).

(** [s.rfind(c)] for a single character [c]: the highest index holding [c],
    or [-1].  [rfind_from c s i] reads [s] as the suffix that starts at
    index [i]. *)
Fixpoint rfind_from (c : ascii) (s : string) (i : Z) : Z :=
  match s with
  | EmptyString => -1
  | String a r =>
      let k := rfind_from c r (i + 1) in
      if 0 <=? k then k else if Ascii.eqb a c then i else -1
  end.

Definition rfind (c : ascii) (s : string) : Z := rfind_from c s 0.

(** [str.lower()] on the ASCII range.  Outside it the characters are left
    alone; no character outside it lowers to a letter of the allow-list of
    [isImg], so membership in that list is not affected. *)
Definition lower_char (c : ascii) : ascii :=
  let n := nat_of_ascii c in
  if (Nat.leb 65 n && Nat.leb n 90)%bool then ascii_of_nat (n + 32) else c.

Fixpoint lower (s : string) : string :=
  match s with
  | EmptyString => EmptyString
  | String c r => String (lower_char c) (lower r)
  end.

(** [x in xs] for a list of strings. *)
Definition elem (x : string) (xs : list string) : bool :=
  existsb (String.eqb x) xs.

(** The rest of [s] after the prefix [p], when [s] starts with [p]. *)
Fixpoint strip_prefix (p s : string) : option string :=
  match p with
  | EmptyString => Some s
  | String a p' =>
      match s with
      | String b s' => if Ascii.eqb a b then strip_prefix p' s' else None
      | EmptyString => None
      end
  end.

End PyStr.

(** ** [os.path.splitext] (posixpath: [sep = '/'], no [altsep], [extsep = '.']) *)

(** The [while filenameIndex < dotIndex] loop of [genericpath._splitext]; it
    runs at most [dotIndex - filenameIndex] times, which [steps] counts. *)
Fixpoint splitext_loop (p : string) (dotIndex filenameIndex : Z) (steps : nat)
  : string * string :=
  match steps with
  | O => (p, EmptyString)
  | S steps' =>
      if filenameIndex <? dotIndex then
        if negb (String.eqb (PyStr.slice1 p filenameIndex) ".") then
          (PyStr.take (Z.to_nat dotIndex) p, PyStr.drop (Z.to_nat dotIndex) p)
        else splitext_loop p dotIndex (filenameIndex + 1) steps'
      else (p, EmptyString)
  end.

Definition splitext (p : string) : string * string :=
  let sepIndex := PyStr.rfind "/" p in
  let dotIndex := PyStr.rfind "." p in
  if sepIndex <? dotIndex then
    splitext_loop p dotIndex (sepIndex + 1) (Z.to_nat (dotIndex - sepIndex))
  else (p, EmptyString).

(** ** Scanner *)

Definition imgExts : list string :=
  [".jpg"; ".jpeg"; ".png"; ".webp"; ".bmp"; ".avif"].

Definition isImg (filePath : string) : bool :=
  let '(_, fileExtension) := splitext filePath in
  PyStr.elem (PyStr.lower fileExtension) imgExts.

(** ** Exceptions *)

Inductive exn : Type :=
| FileNotFoundError (path : string)
| PermissionError (path : string)
| IsADirectoryError (path : string)
| OperationalError (query : string)
| IndexError
| ValueError.

(** The three [OSError]s that [open(path, "rb")] raises. *)
Definition is_OSError (e : exn) : bool :=
  match e with
  | FileNotFoundError _ | PermissionError _ | IsADirectoryError _ => true
  | _ => false
  end.

Inductive outcome (A : Type) : Type :=
| Ok (a : A)
| Raise (e : exn).

Arguments Ok {A} a.
Arguments Raise {A} e.

(** ** The file system, as the program observes it *)

Inductive node : Type :=
| Absent
| RegularFile (data : list Byte.byte)
| Unreadable
| Directory.

(** [rglob start] is what [Path(start).rglob('*')] enumerates, files and
    directories alike, as strings and in the order of the traversal;
    [node_at path] is what lies at [path]. *)
Record filesystem : Type := {
  rglob : string -> list string;
  node_at : string -> node
}.

(** [with open(path, "rb") as f: f.read()] *)
Definition read_bytes (fs : filesystem) (path : string) : outcome (list Byte.byte) :=
  match node_at fs path with
  | RegularFile data => Ok data
  | Absent => Raise (FileNotFoundError path)
  | Unreadable => Raise (PermissionError path)
  | Directory => Raise (IsADirectoryError path)
  end.

(** [imgPaths]: the generator yields [str(path)] for the enumerated paths
    that pass [isImg]. *)
Definition imgPaths (fs : filesystem) (startPath : string) : list string :=
  filter isImg (rglob fs startPath).

(** ** [hexdigest]: two lower-case hexadecimal digits per digest byte *)

Definition hexchar (n : N) : ascii :=
  nth (N.to_nat n) (list_ascii_of_string "0123456789abcdef") "0"%char.

Definition hexbyte (b : Byte.byte) : string :=
  let n := Strings.Byte.to_N b in
  String (hexchar (n / 16)) (String (hexchar (n mod 16)) EmptyString).

Fixpoint hexdigest (digest : list Byte.byte) : string :=
  match digest with
  | [] => EmptyString
  | b :: r => hexbyte b ++ hexdigest r
  end.

(** ** The store: one table [media(hash TEXT PRIMARY KEY, imageClass TEXT)] *)

(** The rows [(hash, imageClass)] of [media] in rowid order, as the
    connection sees them. *)
Definition database : Type := list (string * string).

Inductive sqlvalue : Type :=
| SqlInteger (z : Z)
| SqlText (s : string).

Definition sqlvalue_eqb (a b : sqlvalue) : bool :=
  match a, b with
  | SqlInteger x, SqlInteger y => x =? y
  | SqlText x, SqlText y => String.eqb x y
  | _, _ => false
  end.

(** The statements [modules.py] sends to SQLite, read back from the query
    text the way SQLite reads it.  A text outside this fragment is answered
    with [None], which [executeQuery] turns into [OperationalError]. *)
Module Sqlite.

Inductive statement : Type :=
| CreateMedia
| InsertOrReplace (hash imageClass : string)
| SelectExists (hash : string)
| SelectAll.

Definition quote : ascii := "'"%char.

Definition cons_fst (c : ascii) (r : option (string * string)) : option (string * string) :=
  match r with
  | Some (v, k) => Some (String c v, k)
  | None => None
  end.

(** The body of a string literal, after its opening quote: it runs to the
    first quote that is not doubled, and a doubled quote stands for one
    quote character.  Returns the value and the text after the closing
    quote; [None] when the literal is not terminated. *)
Fixpoint literal_body (s : string) : option (string * string) :=
  match s with
  | EmptyString => None
  | String c r =>
      if Ascii.eqb c quote then
        match r with
        | String c' r' =>
            if Ascii.eqb c' quote then cons_fst quote (literal_body r')
            else Some (EmptyString, r)
        | EmptyString => Some (EmptyString, r)
        end
      else cons_fst c (literal_body r)
  end.

Definition string_literal (s : string) : option (string * string) :=
  match s with
  | String c r => if Ascii.eqb c quote then literal_body r else None
  | EmptyString => None
  end.

Definition create_media : string :=
  "CREATE TABLE IF NOT EXISTS media (hash TEXT PRIMARY KEY, imageClass TEXT)".

Definition select_all : string := "SELECT imageClass, hash FROM media".

Definition insert_head : string :=
  "INSERT OR REPLACE INTO media(hash, imageClass) VALUES(".

Definition exists_head : string :=
  "SELECT EXISTS(SELECT 1 FROM media WHERE hash=".

Definition parse_insert (r : string) : option statement :=
  match string_literal r with
  | Some (h, r1) =>
      match PyStr.strip_prefix ", " r1 with
      | Some r2 =>
          match string_literal r2 with
          | Some (c, r3) => if String.eqb r3 ")" then Some (InsertOrReplace h c) else None
          | None => None
          end
      | None => None
      end
  | None => None
  end.

Definition parse_exists (r : string) : option statement :=
  match string_literal r with
  | Some (h, r1) => if String.eqb r1 ")" then Some (SelectExists h) else None
  | None => None
  end.

Definition parse (query : string) : option statement :=
  if String.eqb query create_media then Some CreateMedia
  else if String.eqb query select_all then Some SelectAll
  else
    match PyStr.strip_prefix insert_head query with
    | Some r => parse_insert r
    | None =>
        match PyStr.strip_prefix exists_head query with
        | Some r => parse_exists r
        | None => None
        end
    end.

Definition has_hash (h : string) (db : database) : bool :=
  existsb (fun r => String.eqb (fst r) h) db.

(** [hash] is the primary key: REPLACE deletes the row in conflict and
    inserts the new one, which takes the next rowid. *)
Definition insert_or_replace (h c : string) (db : database) : database :=
  (filter (fun r => negb (String.eqb (fst r) h)) db ++ [(h, c)])%list.

(** The rows fetched and the table afterwards. *)
Definition run (st : statement) (db : database) : list (list sqlvalue) * database :=
  match st with
  | CreateMedia => ([], db)
  | InsertOrReplace h c => ([], insert_or_replace h c db)
  | SelectExists h => ([[SqlInteger (if has_hash h db then 1 else 0)]], db)
  | SelectAll => (map (fun r => [SqlText (snd r); SqlText (fst r)]) db, db)
  end.

End Sqlite.

(** ** Code that runs against a connection *)

Definition M (A : Type) : Type := database -> outcome A * database.

Definition ret {A : Type} (a : A) : M A := fun conn => (Ok a, conn).

Definition throw {A : Type} (e : exn) : M A := fun conn => (Raise e, conn).

Definition bind {A B : Type} (m : M A) (k : A -> M B) : M B :=
  fun conn =>
    match m conn with
    | (Ok a, conn') => k a conn'
    | (Raise e, conn') => (Raise e, conn')
    end.

(** A computation that only reads the file system. *)
Definition lift {A : Type} (r : outcome A) : M A := fun conn => (r, conn).

Declare Scope py_scope.
Delimit Scope py_scope with py.
Notation "x <- m ;; k" := (bind m (fun x => k))
  (at level 100, m at next level, right associativity) : py_scope.
Notation "m ;; k" := (bind m (fun _ => k))
  (at level 100, right associativity) : py_scope.
Local Open Scope py_scope.

(** [cursor.execute(query); cursor.fetchall()] *)
Definition executeQuery (query : string) : M (list (list sqlvalue)) :=
  fun conn =>
    match Sqlite.parse query with
    | Some st => let '(rows, conn') := Sqlite.run st conn in (Ok rows, conn')
    | None => (Raise (OperationalError query), conn)
    end.

(** The f-string of [hashExist]. *)
Definition existsQuery (hashValue : string) : string :=
  "SELECT EXISTS(SELECT 1 FROM media WHERE hash='" ++ hashValue ++ "')".

(** [result[0][0] == 1] *)
Definition hashExist (hashValue : string) : M bool :=
  result <- executeQuery (existsQuery hashValue) ;;
  match result with
  | (v :: _) :: _ => ret (sqlvalue_eqb v (SqlInteger 1))
  | _ => throw IndexError
  end.

(** The f-string of [processImgs]. *)
Definition insertQuery (imgHash imgClass : string) : string :=
  "INSERT OR REPLACE INTO media(hash, imageClass) VALUES('" ++ imgHash
    ++ "', '" ++ imgClass ++ "')".

Definition createTable (tableID : string) (columns : list string) : M unit :=
  executeQuery ("CREATE TABLE IF NOT EXISTS " ++ tableID ++ " ("
                  ++ String.concat ", " columns ++ ")") ;;
  ret tt.

Definition classifyImg (imgPath : string) : string := "thing".

(** ** The class dictionary: a [dict] from class name to list of paths,
    in insertion order *)

Definition classDict : Type := list (string * list string).

Definition dict_has (k : string) (d : classDict) : bool :=
  existsb (fun e => String.eqb (fst e) k) d.

(** [d[k] = []] for a key that is not in [d]. *)
Definition dict_new_key (k : string) (d : classDict) : classDict :=
  (d ++ [(k, [])])%list.

(** [d[k].append(p)] *)
Fixpoint dict_append (k p : string) (d : classDict) : classDict :=
  match d with
  | [] => []
  | (k', l) :: d' =>
      if String.eqb k' k then (k', (l ++ [p])%list) :: d'
      else (k', l) :: dict_append k p d'
  end.

(** Every path of every list of the dictionary. *)
Definition all_paths (d : classDict) : list string := List.concat (map snd d).

Section Pictopy.

(** [hashlib.md5(data).digest()] *)
Variable md5 : list Byte.byte -> list Byte.byte.

Variable fs : filesystem.

(** ** Hasher *)

Definition genHash (imgPath : string) : outcome string :=
  match read_bytes fs imgPath with
  | Ok imgData => Ok (hexdigest (md5 imgData))
  | Raise e => Raise e
  end.

(** ** Reconciler: one lookup *)

(** Draws from the generator [files] until a file with [targetHash] comes;
    returns the file, or [None], and what the generator has left. *)
Fixpoint detectFileWithHash (files : list string) (targetHash : string)
  : outcome (option string * list string) :=
  match files with
  | [] => Ok (None, [])
  | file :: files' =>
      if negb (isImg file) then detectFileWithHash files' targetHash
      else
        match genHash file with
        | Raise e => Raise e
        | Ok fileHash =>
            if String.eqb fileHash targetHash then Ok (Some file, files')
            else detectFileWithHash files' targetHash
        end
  end.

(** ** Indexer *)

Fixpoint processImgs (files : list string) : M unit :=
  match files with
  | [] => ret tt
  | file :: files' =>
      if negb (isImg file) then processImgs files'
      else
        imgHash <- lift (genHash file) ;;
        known <- hashExist imgHash ;;
        if (known : bool) then processImgs files'
        else
          let imgClass := classifyImg file in
          executeQuery (insertQuery imgHash imgClass) ;;
          processImgs files'
  end.

(** ** Reconciler *)

(** The [for row in rows] loop of [fileByClass]; the generator [files] is
    the one object handed to every call of [detectFileWithHash]. *)
Fixpoint fileByClass_loop (rows : list (list sqlvalue)) (files : list string)
    (d : classDict) : outcome classDict :=
  match rows with
  | [] => Ok d
  | [SqlText imageClass; SqlText hashValue] :: rows' =>
      let d1 := if negb (dict_has imageClass d) then dict_new_key imageClass d else d in
      match detectFileWithHash files hashValue with
      | Raise e => Raise e
      | Ok (filePath, files') =>
          let d2 :=
            match filePath with
            | Some p => if String.eqb p EmptyString then d1 else dict_append imageClass p d1
            | None => d1
            end in
          fileByClass_loop rows' files' d2
      end
  | _ :: _ => Raise ValueError
  end.

Definition fileByClass (files : list string) (tableID : string) : M classDict :=
  rows <- executeQuery ("SELECT imageClass, hash FROM " ++ tableID) ;;
  lift (fileByClass_loop rows files []).

(** ** Entry point *)

(** [home] is [homeDir()] and [stored] the rows of [~/.pictopy.db] when
    [connectDB] opens it.  A call that returns has gone through
    [closeConnection], which commits: the rows of the connection are given
    back with the result.  A call that raises never reaches
    [closeConnection]; what the file holds then is not part of the model. *)
Definition classifyPath (home : string) (stored : database) : outcome (classDict * database) :=
  let columns := ["hash TEXT PRIMARY KEY"; "imageClass TEXT"] in
  let tableID := "media" in
  let body : M classDict :=
    createTable tableID columns ;;
    processImgs (imgPaths fs home) ;;
    fileByClass (imgPaths fs home) tableID in
  match body stored with
  | (Ok result, conn) => Ok (result, conn)
  | (Raise e, _) => Raise e
  end.

End Pictopy.

(** ** Vocabulary of the statements *)

(** The extension of a path, as [isImg] takes it. *)
Definition extension (p : string) : string := snd (splitext p).

(** No quote character in [s]. *)
Fixpoint quote_free (s : string) : bool :=
  match s with
  | EmptyString => true
  | String c r => negb (Ascii.eqb c Sqlite.quote) && quote_free r
  end.

(** The dictionary after the bookkeeping of one row. *)
Definition after_row (imageClass : string) (filePath : option string) (d : classDict)
  : classDict :=
  let d1 := if negb (dict_has imageClass d) then dict_new_key imageClass d else d in
  match filePath with
  | Some p => if String.eqb p EmptyString then d1 else dict_append imageClass p d1
  | None => d1
  end.

(** The rows [SELECT imageClass, hash] fetches. *)
Definition fetched (conn : database) : list (list sqlvalue) :=
  map (fun r => [SqlText (snd r); SqlText (fst r)]) conn.

(** The labels stored under a hash. *)
Definition stored_labels (h : string) (db : database) : list string :=
  map snd (filter (fun r => String.eqb (fst r) h) db).

(** ** Paths of the program's own files *)

(** [os.path.join(a, b)] (posixpath, two arguments). *)
Definition path_join (a b : string) : string :=
  match PyStr.strip_prefix "/" b with
  | Some _ => b
  | None =>
      if String.eqb a EmptyString
         || String.eqb (PyStr.drop (String.length a - 1) a) "/"
      then a ++ b
      else a ++ "/" ++ b
  end.

(** [dbPath] of [classifyPath], for [home = homeDir()]. *)
Definition dbPath (home : string) : string := path_join home ".pictopy.db".

(** ** [utils/log.py]: [StreamToLogger] *)

(** Line breaks and blanks are decided on code points beyond ASCII, so the
    text handed to [write] is a list of code points. *)
Module Log.

Definition text : Type := list N.

(** [str.isspace] of one character. *)
Definition isspace (c : N) : bool :=
  ((9 <=? c) && (c <=? 13) || (28 <=? c) && (c <=? 32)
   || (c =? 133) || (c =? 160) || (c =? 5760)
   || (8192 <=? c) && (c <=? 8202)
   || (c =? 8232) || (c =? 8233) || (c =? 8239) || (c =? 8287) || (c =? 12288))%N.

(** The characters [str.splitlines] breaks at. *)
Definition islinebreak (c : N) : bool :=
  ((10 <=? c) && (c <=? 13) || (28 <=? c) && (c <=? 30)
   || (c =? 133) || (c =? 8232) || (c =? 8233))%N.

(** [s.rstrip()] *)
Fixpoint rstrip (s : text) : text :=
  match s with
  | [] => []
  | c :: r =>
      match rstrip r with
      | [] => if isspace c then [] else [c]
      | r' => c :: r'
      end
  end.

(** [s.splitlines()]: the lines without their ends; a carriage return
    followed by a line feed is one line end, and the text after the last
    line end is a line when it is not empty. *)
Fixpoint splitlines (s : text) : list text :=
  match s with
  | [] => []
  | c :: r =>
      if islinebreak c then
        [] :: match r with
              | c' :: r' => if ((c =? 13) && (c' =? 10))%N then splitlines r' else splitlines r
              | [] => []
              end
      else
        match splitlines r with
        | [] => [[c]]
        | line :: lines => (c :: line) :: lines
        end
  end.

Record StreamToLogger : Type := {
  log_level : Z;
  linebuf : text
}.

(** [write]: the calls [self.logger.log(level, message)] it makes, in
    order. *)
Definition write (self : StreamToLogger) (buf : text) : list (Z * text) :=
  map (fun line => (log_level self, rstrip line)) (splitlines (rstrip buf)).

End Log.

(** ** Vocabulary of the further properties *)

(** [c in s] for a character [c]. *)
Fixpoint contains (c : ascii) (s : string) : bool :=
  match s with
  | EmptyString => false
  | String a r => Ascii.eqb a c || contains c r
  end.

(** A string of [n] dots. *)
Fixpoint dots (n : nat) : string :=
  match n with
  | O => EmptyString
  | S n' => String "." (dots n')
  end.

(** A lookup for [target] passes over [f]: [f] is no image path, or it is
    read and hashes to something else. *)
Definition passed_over (md5 : list Byte.byte -> list Byte.byte) (fs : filesystem)
    (target f : string) : Prop :=
  isImg f = true -> exists h, genHash md5 fs f = Ok h /\ h <> target.

(** The hash of a readable file, and the empty string otherwise. *)
Definition digest_at (md5 : list Byte.byte -> list Byte.byte) (fs : filesystem)
    (f : string) : string :=
  match genHash md5 fs f with
  | Ok h => h
  | Raise _ => EmptyString
  end.

(** The readable files of [files] whose hash is neither in [seen] nor the
    hash of an earlier file of [files]. *)
Fixpoint first_seen (md5 : list Byte.byte -> list Byte.byte) (fs : filesystem)
    (seen : list string) (files : list string) : list string :=
  match files with
  | [] => []
  | f :: files' =>
      match genHash md5 fs f with
      | Ok h =>
          if PyStr.elem h seen then first_seen md5 fs seen files'
          else f :: first_seen md5 fs (h :: seen) files'
      | Raise _ => first_seen md5 fs seen files'
      end
  end.

(** [p in d[k]] *)
Definition listed (k p : string) (d : classDict) : Prop :=
  exists l, In (k, l) d /\ In p l.

(** The dictionary with the one class of the classifier stub. *)
Definition one_class (paths : list string) : classDict :=
  match paths with
  | [] => []
  | _ :: _ => [("thing", paths)]
  end.

(** ** Worked inputs *)

(** A file system given by its entries in traversal order. *)
Definition disk (entries : list (string * node)) : filesystem := {|
  rglob := fun _ => map fst entries;
  node_at := fun path =>
    match find (fun e => String.eqb (fst e) path) entries with
    | Some e => snd e
    | None => Absent
    end
|}.

(** The worked inputs need some digest function; the theorems hold for
    every one, so the identity serves. *)
Definition plain_digest (data : list Byte.byte) : list Byte.byte := data.

Definition root_a_b : filesystem :=
  disk [("/root/a.png", RegularFile [Byte.x01]); ("/root/b.png", RegularFile [Byte.x02])].

Definition root_a : filesystem := disk [("/root/a.png", RegularFile [Byte.x01])].

Definition root_empty : filesystem := disk [].

(** A folder named [x.png]. *)
Definition root_folder_x_png : filesystem := disk [("/root/x.png", Directory)].

(** [b.png] cannot be opened. *)
Definition root_b_unreadable : filesystem :=
  disk [("/root/a.png", RegularFile [Byte.x01]); ("/root/b.png", Unreadable);
        ("/root/c.png", RegularFile [Byte.x03])].

(** * Properties *)

(** ** Strings and [splitext] *)

Lemma take_drop (k : nat) (s : string) : PyStr.take k s ++ PyStr.drop k s = s.
Proof.
  revert s; induction k as [|k IH]; intros [|c r]; simpl; try reflexivity.
  now rewrite IH.
Qed.

Lemma splitext_loop_app (p : string) (dotIndex i : Z) (steps : nat) :
  fst (splitext_loop p dotIndex i steps) ++ snd (splitext_loop p dotIndex i steps) = p.
Proof.
  assert (Hnil : forall s : string, s ++ EmptyString = s)
    by (induction s as [|c s IHs]; simpl; [reflexivity | now rewrite IHs]).
  revert i; induction steps as [|n IH]; intros i; simpl.
  - apply Hnil.
  - destruct (i <? dotIndex).
    + destruct (negb _); simpl; [apply take_drop | apply IH].
    + apply Hnil.
Qed.

Lemma splitext_app (p : string) : fst (splitext p) ++ extension p = p.
Proof.
  unfold extension, splitext.
  destruct (PyStr.rfind "/" p <? PyStr.rfind "." p).
  - apply splitext_loop_app.
  - simpl. induction p as [|c s IHs]; simpl; [reflexivity | now rewrite IHs].
Qed.

Example splitext_samples :
  splitext "/root/a.png" = ("/root/a", ".png") /\
  splitext "/root/.png" = ("/root/.png", "") /\
  splitext "/root/a.b/c" = ("/root/a.b/c", "") /\
  splitext "/root/x.tar.GZ" = ("/root/x.tar", ".GZ").
Proof. repeat split. Qed.

Example isImg_samples :
  isImg "/root/a.png" = true /\ isImg "/root/A.JpEg" = true /\
  isImg "/root/b.txt" = false /\ isImg "/root/.png" = false /\
  isImg "/root/png" = false.
Proof. repeat split. Qed.

Lemma isImg_extension (p : string) :
  isImg p = PyStr.elem (PyStr.lower (extension p)) imgExts.
Proof. unfold isImg, extension. now destruct (splitext p). Qed.

Lemma elem_In (x : string) (xs : list string) : PyStr.elem x xs = true <-> In x xs.
Proof.
  unfold PyStr.elem. rewrite existsb_exists. split.
  - intros (y & Hy & E). apply String.eqb_eq in E. now subst.
  - intros H. exists x. split; [assumption | apply String.eqb_refl].
Qed.

(** ** The SQL text of the two interpolated statements *)

Lemma quote_free_app (a b : string) :
  quote_free (a ++ b) = quote_free a && quote_free b.
Proof.
  induction a as [|c a IH]; simpl; [reflexivity|].
  now rewrite IH, andb_assoc.
Qed.

Lemma hexbyte_quote_free (b : Byte.byte) : quote_free (hexbyte b) = true.
Proof. destruct b; reflexivity. Qed.

Lemma hexdigest_quote_free (d : list Byte.byte) : quote_free (hexdigest d) = true.
Proof.
  induction d as [|b d IH]; cbn [hexdigest]; [reflexivity|].
  now rewrite quote_free_app, hexbyte_quote_free, IH.
Qed.

Lemma strip_prefix_app (p r : string) : PyStr.strip_prefix p (p ++ r) = Some r.
Proof.
  induction p as [|c p IH]; simpl; [reflexivity|].
  now rewrite Ascii.eqb_refl.
Qed.

(** A literal whose value has no quote is read back as that value, when the
    text goes on with something other than a quote. *)
Lemma literal_body_quote_free (v : string) (c : ascii) (rest : string) :
  quote_free v = true ->
  Ascii.eqb c Sqlite.quote = false ->
  Sqlite.literal_body (v ++ String Sqlite.quote (String c rest))
  = Some (v, String c rest).
Proof.
  intros Hv Hc. induction v as [|a v IH].
  - cbn [append Sqlite.literal_body]. now rewrite Ascii.eqb_refl, Hc.
  - cbn [quote_free] in Hv. apply andb_true_iff in Hv as [Ha Hv].
    apply negb_true_iff in Ha.
    cbn [append Sqlite.literal_body]. now rewrite Ha, (IH Hv).
Qed.

Lemma insertQuery_shape (h c : string) :
  insertQuery h c
  = Sqlite.insert_head
      ++ String Sqlite.quote (h ++ String Sqlite.quote
           (String "," (String " " (String Sqlite.quote (c ++ String Sqlite.quote ")"))))).
Proof. reflexivity. Qed.

Lemma existsQuery_shape (h : string) :
  existsQuery h = Sqlite.exists_head ++ String Sqlite.quote (h ++ String Sqlite.quote ")").
Proof. reflexivity. Qed.

Lemma parse_insertQuery (h c : string) :
  quote_free h = true -> quote_free c = true ->
  Sqlite.parse (insertQuery h c) = Some (Sqlite.InsertOrReplace h c).
Proof.
  intros Hh Hc. unfold Sqlite.parse.
  replace (String.eqb (insertQuery h c) Sqlite.create_media) with false by reflexivity.
  replace (String.eqb (insertQuery h c) Sqlite.select_all) with false by reflexivity.
  rewrite insertQuery_shape, strip_prefix_app.
  unfold Sqlite.parse_insert, Sqlite.string_literal.
  rewrite Ascii.eqb_refl, (literal_body_quote_free h _ _ Hh) by reflexivity.
  cbn [PyStr.strip_prefix]. rewrite !Ascii.eqb_refl.
  rewrite (literal_body_quote_free c ")" EmptyString Hc) by reflexivity.
  reflexivity.
Qed.

Lemma parse_existsQuery (h : string) :
  quote_free h = true ->
  Sqlite.parse (existsQuery h) = Some (Sqlite.SelectExists h).
Proof.
  intros Hh. unfold Sqlite.parse.
  replace (String.eqb (existsQuery h) Sqlite.create_media) with false by reflexivity.
  replace (String.eqb (existsQuery h) Sqlite.select_all) with false by reflexivity.
  replace (PyStr.strip_prefix Sqlite.insert_head (existsQuery h)) with (@None string)
    by reflexivity.
  rewrite existsQuery_shape, strip_prefix_app.
  unfold Sqlite.parse_exists, Sqlite.string_literal.
  rewrite Ascii.eqb_refl, (literal_body_quote_free h ")" EmptyString Hh) by reflexivity.
  reflexivity.
Qed.

(** With values free of quotes the store layer does what its callers mean. *)
Lemma hashExist_quote_free (h : string) (conn : database) :
  quote_free h = true ->
  hashExist h conn = (Ok (Sqlite.has_hash h conn), conn).
Proof.
  intros Hh. unfold hashExist, bind, executeQuery.
  rewrite (parse_existsQuery h Hh). simpl.
  now destruct (Sqlite.has_hash h conn).
Qed.

Lemma insert_quote_free (h c : string) (conn : database) :
  quote_free h = true -> quote_free c = true ->
  executeQuery (insertQuery h c) conn = (Ok [], Sqlite.insert_or_replace h c conn).
Proof.
  intros Hh Hc. unfold executeQuery. now rewrite (parse_insertQuery h c Hh Hc).
Qed.

Lemma insert_or_replace_fresh (h c : string) (db : database) :
  Sqlite.has_hash h db = false ->
  Sqlite.insert_or_replace h c db = (db ++ [(h, c)])%list.
Proof.
  intros H. unfold Sqlite.insert_or_replace. f_equal.
  induction db as [|r db IH]; simpl in *; [reflexivity|].
  apply orb_false_iff in H as [Hr Hdb]. now rewrite Hr, (IH Hdb).
Qed.

Lemma has_hash_app (h : string) (a b : database) :
  Sqlite.has_hash h (a ++ b)%list = Sqlite.has_hash h a || Sqlite.has_hash h b.
Proof. unfold Sqlite.has_hash. apply existsb_app. Qed.

(** ** The Indexer, one file at a time *)

Section IndexerSteps.

Variable md5 : list Byte.byte -> list Byte.byte.
Variable fs : filesystem.

Lemma genHash_Ok (f h : string) :
  genHash md5 fs f = Ok h ->
  exists data, node_at fs f = RegularFile data /\ h = hexdigest (md5 data).
Proof.
  unfold genHash, read_bytes. destruct (node_at fs f); intros H; try discriminate.
  injection H as <-. now exists data.
Qed.

Lemma genHash_quote_free (f h : string) :
  genHash md5 fs f = Ok h -> quote_free h = true.
Proof.
  intros H. apply genHash_Ok in H as (data & _ & ->). apply hexdigest_quote_free.
Qed.

Lemma genHash_Raise (f : string) (e : exn) :
  genHash md5 fs f = Raise e -> read_bytes fs f = Raise e /\ is_OSError e = true.
Proof.
  unfold genHash, read_bytes.
  destruct (node_at fs f); intros H; try discriminate; injection H as <-; now split.
Qed.

Lemma processImgs_other (f : string) (files : list string) (conn : database) :
  isImg f = false ->
  processImgs md5 fs (f :: files) conn = processImgs md5 fs files conn.
Proof. intros H. cbn [processImgs]. now rewrite H. Qed.

Lemma processImgs_unreadable (f : string) (files : list string) (conn : database) (e : exn) :
  isImg f = true -> genHash md5 fs f = Raise e ->
  processImgs md5 fs (f :: files) conn = (Raise e, conn).
Proof.
  intros Hi Hg. cbn [processImgs]. rewrite Hi. cbn [negb].
  unfold bind at 1. unfold lift. now rewrite Hg.
Qed.

Lemma processImgs_known (f : string) (files : list string) (conn : database) (h : string) :
  isImg f = true -> genHash md5 fs f = Ok h -> Sqlite.has_hash h conn = true ->
  processImgs md5 fs (f :: files) conn = processImgs md5 fs files conn.
Proof.
  intros Hi Hg Hk. cbn [processImgs]. rewrite Hi. cbn [negb].
  unfold bind at 1. unfold lift. rewrite Hg.
  unfold bind at 1. rewrite (hashExist_quote_free h conn (genHash_quote_free f h Hg)).
  now rewrite Hk.
Qed.

Lemma processImgs_new (f : string) (files : list string) (conn : database) (h : string) :
  isImg f = true -> genHash md5 fs f = Ok h -> Sqlite.has_hash h conn = false ->
  processImgs md5 fs (f :: files) conn
  = processImgs md5 fs files (conn ++ [(h, classifyImg f)])%list.
Proof.
  intros Hi Hg Hk. cbn [processImgs]. rewrite Hi. cbn [negb].
  unfold bind at 1. unfold lift. rewrite Hg.
  unfold bind at 1. rewrite (hashExist_quote_free h conn (genHash_quote_free f h Hg)).
  rewrite Hk. unfold bind at 1.
  rewrite insert_quote_free by (reflexivity || exact (genHash_quote_free f h Hg)).
  now rewrite insert_or_replace_fresh.
Qed.

(** The four ways one step of the pass can go. *)
Ltac indexer_step f conn :=
  let Hi := fresh "Hi" in
  let Hg := fresh "Hg" in
  let Hk := fresh "Hk" in
  let h := fresh "h" in
  let e := fresh "e" in
  destruct (isImg f) eqn:Hi;
  [ destruct (genHash md5 fs f) as [h|e] eqn:Hg;
    [ destruct (Sqlite.has_hash h conn) eqn:Hk;
      [ rewrite (processImgs_known f _ conn h Hi Hg Hk)
      | rewrite (processImgs_new f _ conn h Hi Hg Hk) ]
    | rewrite (processImgs_unreadable f _ conn e Hi Hg) ]
  | rewrite (processImgs_other f _ conn Hi) ].

(** A pass only appends rows, and only rows whose hash was not stored. *)
Lemma processImgs_appends (files : list string) (conn : database) :
  exists added,
    snd (processImgs md5 fs files conn) = (conn ++ added)%list /\
    Forall (fun row => Sqlite.has_hash (fst row) conn = false) added.
Proof.
  revert conn; induction files as [|f files IH]; intros conn.
  - exists []. simpl. now rewrite app_nil_r.
  - indexer_step f conn.
    + apply IH.
    + destruct (IH (conn ++ [(h, classifyImg f)])%list) as (added & E & Hn).
      exists ((h, classifyImg f) :: added). split.
      * now rewrite E, <- app_assoc.
      * constructor; [exact Hk|].
        revert Hn. apply Forall_impl. intros row Hrow.
        rewrite has_hash_app in Hrow. now apply orb_false_iff in Hrow.
    + exists []. simpl. now rewrite app_nil_r.
    + apply IH.
Qed.

Lemma processImgs_keeps_hashes (files : list string) (conn : database) (h : string) :
  Sqlite.has_hash h conn = true ->
  Sqlite.has_hash h (snd (processImgs md5 fs files conn)) = true.
Proof.
  intros H. destruct (processImgs_appends files conn) as (added & -> & _).
  now rewrite has_hash_app, H.
Qed.

(** A pass over a generator that yields [pre] and then [rest]. *)
Lemma processImgs_app (pre rest : list string) (conn : database) :
  processImgs md5 fs (pre ++ rest) conn
  = match processImgs md5 fs pre conn with
    | (Ok _, conn') => processImgs md5 fs rest conn'
    | (Raise e, conn') => (Raise e, conn')
    end.
Proof.
  revert conn; induction pre as [|f pre IH]; intros conn; [reflexivity|].
  rewrite <- app_comm_cons. cbn [processImgs].
  destruct (negb (isImg f)); [apply IH|].
  unfold bind. destruct (lift (genHash md5 fs f) conn) as [[h|e] c1]; [|reflexivity].
  destruct (hashExist h c1) as [[[|]|e] c2]; [apply IH| |reflexivity].
  destruct (executeQuery _ c2) as [[rows|e] c3]; [apply IH|reflexivity].
Qed.

(** Whatever a pass raises comes from reading a file. *)
Lemma processImgs_raises_OSError (files : list string) (conn conn' : database) (e : exn) :
  processImgs md5 fs files conn = (Raise e, conn') -> is_OSError e = true.
Proof.
  revert conn; induction files as [|f files IH]; intros conn; [discriminate|].
  indexer_step f conn; try apply IH.
  intros H. injection H as <- _. now apply genHash_Raise in Hg.
Qed.

(** A file that cannot be hashed stops every pass that meets it. *)
Lemma processImgs_aborts (files : list string) (conn : database) (f : string) (e0 : exn) :
  In f files -> isImg f = true -> genHash md5 fs f = Raise e0 ->
  exists e conn', processImgs md5 fs files conn = (Raise e, conn').
Proof.
  intros Hin Hf Hr. revert conn; induction files as [|g files IH]; intros conn; [easy|].
  destruct Hin as [->|Hin].
  - rewrite (processImgs_unreadable f _ conn e0 Hf Hr). eauto.
  - indexer_step g conn; eauto.
Qed.

(** A second pass from a store that holds every hash the first pass left
    ends the way the first did and writes nothing. *)
Lemma processImgs_again (files : list string) (conn conn2 : database) :
  (forall h, Sqlite.has_hash h (snd (processImgs md5 fs files conn)) = true ->
             Sqlite.has_hash h conn2 = true) ->
  processImgs md5 fs files conn2 = (fst (processImgs md5 fs files conn), conn2).
Proof.
  revert conn; induction files as [|f files IH]; intros conn Hsub; [reflexivity|].
  revert Hsub. indexer_step f conn; intros Hsub.
  - rewrite (processImgs_known f _ conn2 h Hi Hg).
    + now apply IH.
    + apply Hsub. now apply processImgs_keeps_hashes.
  - rewrite (processImgs_known f _ conn2 h Hi Hg).
    + now apply IH.
    + apply Hsub. apply processImgs_keeps_hashes.
      rewrite has_hash_app. simpl. rewrite String.eqb_refl. apply orb_true_r.
  - now rewrite (processImgs_unreadable f _ conn2 e Hi Hg).
  - rewrite (processImgs_other f _ conn2 Hi). now apply IH.
Qed.

End IndexerSteps.

(** ** The class dictionary *)

Lemma all_paths_new_key (k : string) (d : classDict) :
  all_paths (dict_new_key k d) = all_paths d.
Proof.
  unfold all_paths, dict_new_key.
  rewrite map_app, concat_app. simpl. now rewrite app_nil_r.
Qed.

Lemma dict_has_app (k : string) (d1 d2 : classDict) :
  dict_has k (d1 ++ d2)%list = dict_has k d1 || dict_has k d2.
Proof. unfold dict_has. apply existsb_app. Qed.

Lemma dict_has_new_key (k : string) (d : classDict) : dict_has k (dict_new_key k d) = true.
Proof.
  unfold dict_new_key. rewrite dict_has_app. simpl.
  rewrite String.eqb_refl. apply orb_true_r.
Qed.

Lemma dict_has_append (k k' p : string) (d : classDict) :
  dict_has k (dict_append k' p d) = dict_has k d.
Proof.
  induction d as [|[k0 l] d IH]; [reflexivity|].
  cbn [dict_append]. destruct (String.eqb k0 k'); [reflexivity|].
  simpl. now rewrite IH.
Qed.

Lemma all_paths_append (k p : string) (d : classDict) :
  dict_has k d = true ->
  Permutation (all_paths (dict_append k p d)) (p :: all_paths d).
Proof.
  unfold all_paths. induction d as [|[k0 l] d IH]; [discriminate|].
  cbn [dict_append dict_has existsb fst]. destruct (String.eqb k0 k).
  - intros _. cbn [map snd List.concat]. rewrite <- app_assoc. simpl.
    symmetry. apply Permutation_middle.
  - cbn [orb]. intros H. cbn [map snd List.concat].
    rewrite (IH H). symmetry. apply Permutation_middle.
Qed.

(** ** The Reconciler, one lookup at a time *)

Section ReconcilerSteps.

Variable md5 : list Byte.byte -> list Byte.byte.
Variable fs : filesystem.

Lemma detect_other (f : string) (files : list string) (target : string) :
  isImg f = false ->
  detectFileWithHash md5 fs (f :: files) target = detectFileWithHash md5 fs files target.
Proof. intros H. cbn [detectFileWithHash]. now rewrite H. Qed.

Lemma detect_hit (f : string) (files : list string) (target : string) :
  isImg f = true -> genHash md5 fs f = Ok target ->
  detectFileWithHash md5 fs (f :: files) target = Ok (Some f, files).
Proof.
  intros Hi Hg. cbn [detectFileWithHash]. now rewrite Hi, Hg, String.eqb_refl.
Qed.

Lemma detect_miss (f : string) (files : list string) (h target : string) :
  isImg f = true -> genHash md5 fs f = Ok h -> h <> target ->
  detectFileWithHash md5 fs (f :: files) target = detectFileWithHash md5 fs files target.
Proof.
  intros Hi Hg Hne. cbn [detectFileWithHash]. rewrite Hi, Hg.
  apply String.eqb_neq in Hne. now rewrite Hne.
Qed.

(** A lookup that finds a file has drawn it, and everything before it, from
    the generator. *)
Lemma detect_Some (files : list string) (target p : string) (rest : list string) :
  detectFileWithHash md5 fs files target = Ok (Some p, rest) ->
  exists skipped,
    files = (skipped ++ p :: rest)%list /\ isImg p = true /\ genHash md5 fs p = Ok target.
Proof.
  induction files as [|f files IH]; [discriminate|].
  cbn [detectFileWithHash]. destruct (isImg f) eqn:Hi; cbn [negb].
  - destruct (genHash md5 fs f) as [h|e] eqn:Hg; [|discriminate].
    destruct (String.eqb h target) eqn:E.
    + intros H. injection H as -> ->. apply String.eqb_eq in E. subst h.
      exists []. now repeat split.
    + intros H. destruct (IH H) as (sk & -> & Hp). exists (f :: sk). now split.
  - intros H. destruct (IH H) as (sk & -> & Hp). exists (f :: sk). now split.
Qed.

(** A lookup that finds nothing has drawn the generator empty. *)
Lemma detect_None (files : list string) (target : string) (rest : list string) :
  detectFileWithHash md5 fs files target = Ok (None, rest) -> rest = [].
Proof.
  induction files as [|f files IH]; cbn [detectFileWithHash].
  - now intros [= <-].
  - destruct (negb (isImg f)); [exact IH|].
    destruct (genHash md5 fs f) as [h|e]; [|discriminate].
    destruct (String.eqb h target); [discriminate|exact IH].
Qed.

(** With every image path readable a lookup raises nothing. *)
Lemma detect_returns (files : list string) (target : string) :
  (forall f, In f files -> isImg f = true -> exists h, genHash md5 fs f = Ok h) ->
  exists r rest,
    detectFileWithHash md5 fs files target = Ok (r, rest) /\
    (forall f, In f rest -> In f files).
Proof.
  induction files as [|f files IH]; intros Hr.
  - exists None, []. now split.
  - assert (Hr' : forall g, In g files -> isImg g = true -> exists h, genHash md5 fs g = Ok h)
      by (intros g Hg; apply Hr; now right).
    destruct (IH Hr') as (r & rest & E & Hsub).
    cbn [detectFileWithHash]. destruct (isImg f) eqn:Hi; cbn [negb].
    + destruct (Hr f (or_introl eq_refl) Hi) as (h & ->).
      destruct (String.eqb h target).
      * exists (Some f), files. split; [reflexivity|]. intros g Hg. now right.
      * exists r, rest. split; [exact E|]. intros g Hg. right. now apply Hsub.
    + exists r, rest. split; [exact E|]. intros g Hg. right. now apply Hsub.
Qed.

Lemma after_row_has (c : string) (r : option string) (d : classDict) (k : string) :
  dict_has k (after_row c r d) = dict_has k d || String.eqb c k.
Proof.
  unfold after_row.
  assert (E : dict_has k (if negb (dict_has c d) then dict_new_key c d else d)
              = dict_has k d || String.eqb c k).
  { destruct (dict_has c d) eqn:Hc; cbn [negb].
    - destruct (String.eqb c k) eqn:Hk; [|now rewrite orb_false_r].
      apply String.eqb_eq in Hk. subst k. now rewrite Hc.
    - unfold dict_new_key. rewrite dict_has_app. simpl. now rewrite orb_false_r. }
  destruct r as [p|]; [|exact E].
  destruct (String.eqb p EmptyString); [exact E|].
  now rewrite dict_has_append.
Qed.

Lemma after_row_paths (c : string) (r : option string) (d : classDict) :
  exists extra,
    Permutation (all_paths (after_row c r d)) (extra ++ all_paths d)%list /\
    (extra = [] \/ exists p, r = Some p /\ extra = [p]).
Proof.
  unfold after_row.
  set (d1 := if negb (dict_has c d) then dict_new_key c d else d).
  assert (P1 : all_paths d1 = all_paths d).
  { unfold d1. destruct (negb (dict_has c d)); [apply all_paths_new_key|reflexivity]. }
  assert (H1 : dict_has c d1 = true).
  { unfold d1. destruct (dict_has c d) eqn:Hc; cbn [negb];
      [exact Hc|apply dict_has_new_key]. }
  destruct r as [p|].
  - destruct (String.eqb p EmptyString).
    + exists []. rewrite P1. split; [reflexivity|now left].
    + exists [p]. split; [|right; now exists p].
      rewrite (all_paths_append c p d1 H1), P1. reflexivity.
  - exists []. rewrite P1. split; [reflexivity|now left].
Qed.

Lemma fileByClass_loop_row (c h : string) (rows : list (list sqlvalue))
    (files : list string) (d : classDict) :
  fileByClass_loop md5 fs ([SqlText c; SqlText h] :: rows) files d
  = match detectFileWithHash md5 fs files h with
    | Raise e => Raise e
    | Ok (r, files') => fileByClass_loop md5 fs rows files' (after_row c r d)
    end.
Proof. reflexivity. Qed.

Lemma fileByClass_media (files : list string) (conn : database) :
  fileByClass md5 fs files "media" conn
  = (fileByClass_loop md5 fs (fetched conn) files [], conn).
Proof. reflexivity. Qed.

(** What the loop returns holds the paths it started with and paths drawn
    from the generator, no path twice when the generator yields none twice. *)
Lemma fileByClass_loop_paths (conn : database) (files : list string) (d d' : classDict) :
  fileByClass_loop md5 fs (fetched conn) files d = Ok d' ->
  (forall p, In p (all_paths d') -> In p (all_paths d) \/ In p files) /\
  (NoDup (all_paths d ++ files)%list -> NoDup (all_paths d')) /\
  (forall k, dict_has k d' = dict_has k d || existsb (fun r => String.eqb (snd r) k) conn).
Proof.
  revert files d; induction conn as [|[h c] conn IH]; intros files d.
  - simpl. intros [= <-]. repeat split.
    + now left.
    + intros H. now apply NoDup_app_remove_r in H.
    + intros k. simpl. now rewrite orb_false_r.
  - cbn [fetched map fst snd]. rewrite fileByClass_loop_row.
    destruct (detectFileWithHash md5 fs files h) as [[r files']|e] eqn:Hd; [|discriminate].
    intros Hl. destruct (IH _ _ Hl) as (Hin & Hnd & Hkeys).
    destruct (after_row_paths c r d) as (extra & Hperm & Hextra).
    assert (Hfiles : exists skipped, Permutation files (skipped ++ extra ++ files')%list).
    { destruct Hextra as [->|(p & -> & ->)].
      - destruct r as [p|].
        + apply detect_Some in Hd as (sk & -> & _). exists (sk ++ [p])%list.
          now rewrite <- app_assoc.
        + apply detect_None in Hd as ->. exists files. now rewrite app_nil_r.
      - apply detect_Some in Hd as (sk & -> & _). now exists sk. }
    destruct Hfiles as (skipped & Hfiles).
    repeat split.
    + intros p Hp. destruct (Hin p Hp) as [H|H].
      * apply (Permutation_in _ Hperm), in_app_or in H as [H|H]; [right|now left].
        apply (Permutation_in _ (Permutation_sym Hfiles)).
        apply in_or_app. right. apply in_or_app. now left.
      * right. apply (Permutation_in _ (Permutation_sym Hfiles)).
        apply in_or_app. right. apply in_or_app. now right.
    + intros H. apply Hnd.
      apply (Permutation_NoDup (l := (extra ++ all_paths d) ++ files')%list).
      { apply Permutation_app_tail. now symmetry. }
      apply (NoDup_app_remove_l skipped).
      apply (Permutation_NoDup (l := (all_paths d ++ files)%list)); [|exact H].
      rewrite Hfiles.
      rewrite (Permutation_app_comm extra (all_paths d)), <- app_assoc.
      rewrite (Permutation_app_swap_app skipped (all_paths d)). reflexivity.
    + intros k. rewrite Hkeys, after_row_has. cbn [existsb snd].
      now rewrite orb_assoc.
Qed.

(** With every image path readable the loop raises nothing. *)
Lemma fileByClass_loop_returns (conn : database) (files : list string) (d : classDict) :
  (forall f, In f files -> isImg f = true -> exists h, genHash md5 fs f = Ok h) ->
  exists d', fileByClass_loop md5 fs (fetched conn) files d = Ok d'.
Proof.
  revert files d; induction conn as [|[h c] conn IH]; intros files d Hr.
  - now exists d.
  - cbn [fetched map fst snd]. rewrite fileByClass_loop_row.
    destruct (detect_returns files h Hr) as (r & rest & -> & Hsub).
    apply IH. intros f Hf. apply Hr. now apply Hsub.
Qed.

End ReconcilerSteps.

(** * The claims *)

(** The scenario of the specification: [/root] with [a.png] and [b.txt]. *)
Example scenario_a_png_b_txt :
  classifyPath plain_digest
    (disk [("/root/a.png", RegularFile [Byte.xd1]); ("/root/b.txt", RegularFile [Byte.x02])])
    "/root" []
  = Ok ([("thing", ["/root/a.png"])], [("d1", "thing")]).
Proof. reflexivity. Qed.

(** ** Scanner *)

(** C7. The Scanner yields exactly the enumerated paths whose extension,
    lower-cased, is in the allow-list: a path with another extension is never
    yielded, whatever lies at it, and a yielded path ends in an allow-listed
    extension. *)
Theorem scanner_filter (fs : filesystem) (startPath p : string) :
  (In p (imgPaths fs startPath)
   <-> In p (rglob fs startPath) /\ In (PyStr.lower (extension p)) imgExts)
  /\ fst (splitext p) ++ extension p = p.
Proof.
  split; [|apply splitext_app].
  unfold imgPaths. rewrite filter_In, isImg_extension, elem_In. reflexivity.
Qed.

(** C10. A directory among the enumerated paths whose name passes [isImg]
    is yielded like a file; hashing it raises [IsADirectoryError], and the
    indexing pass over that traversal ends in an [OSError]. *)
Theorem directory_named_like_image
    (md5 : list Byte.byte -> list Byte.byte) (fs : filesystem) (startPath p : string) :
  In p (rglob fs startPath) -> isImg p = true -> node_at fs p = Directory ->
  In p (imgPaths fs startPath) /\
  genHash md5 fs p = Raise (IsADirectoryError p) /\
  forall conn, exists e conn',
    processImgs md5 fs (imgPaths fs startPath) conn = (Raise e, conn') /\
    is_OSError e = true.
Proof.
  intros Hin Hi Hd.
  assert (Hy : In p (imgPaths fs startPath)) by (apply filter_In; now split).
  assert (Hg : genHash md5 fs p = Raise (IsADirectoryError p))
    by (unfold genHash, read_bytes; now rewrite Hd).
  repeat split; try assumption.
  intros conn.
  destruct (processImgs_aborts md5 fs _ conn p _ Hy Hi Hg) as (e & conn' & E).
  exists e, conn'. split; [exact E|].
  exact (processImgs_raises_OSError md5 fs _ _ _ _ E).
Qed.

Lemma directory_named_like_image_witness :
  In "/root/x.png" (imgPaths root_folder_x_png "/root") /\
  genHash plain_digest root_folder_x_png "/root/x.png"
  = Raise (IsADirectoryError "/root/x.png") /\
  forall conn, exists e conn',
    processImgs plain_digest root_folder_x_png (imgPaths root_folder_x_png "/root") conn
    = (Raise e, conn') /\
    is_OSError e = true.
Proof.
  apply (directory_named_like_image plain_digest root_folder_x_png "/root" "/root/x.png").
  - simpl. now left.
  - reflexivity.
  - reflexivity.
Defined.

(** ** Hasher and Indexer *)

(** C8. A file that cannot be read makes [genHash] raise the [OSError] of
    the read, and the pass that reaches it raises the same exception; the
    connection then holds what the pass over the files before it left. *)
Theorem hasher_error_aborts_pass
    (md5 : list Byte.byte -> list Byte.byte) (fs : filesystem)
    (pre : list string) (f : string) (post : list string) (conn : database) (e : exn) :
  isImg f = true ->
  read_bytes fs f = Raise e ->
  fst (processImgs md5 fs pre conn) = Ok tt ->
  genHash md5 fs f = Raise e /\
  is_OSError e = true /\
  processImgs md5 fs (pre ++ f :: post) conn
  = (Raise e, snd (processImgs md5 fs pre conn)).
Proof.
  intros Hi Hr Hpre.
  assert (Hg : genHash md5 fs f = Raise e) by (unfold genHash; now rewrite Hr).
  split; [exact Hg|]. split; [now apply (genHash_Raise md5 fs f)|].
  rewrite processImgs_app.
  destruct (processImgs md5 fs pre conn) as [[[]|e'] conn1]; [|discriminate].
  apply (processImgs_unreadable md5 fs f post conn1 e Hi Hg).
Qed.

Lemma hasher_error_aborts_pass_witness :
  genHash plain_digest root_b_unreadable "/root/b.png"
  = Raise (PermissionError "/root/b.png") /\
  is_OSError (PermissionError "/root/b.png") = true /\
  processImgs plain_digest root_b_unreadable
    (["/root/a.png"] ++ "/root/b.png" :: ["/root/c.png"]) []
  = (Raise (PermissionError "/root/b.png"),
     snd (processImgs plain_digest root_b_unreadable ["/root/a.png"] [])).
Proof.
  apply (hasher_error_aborts_pass plain_digest root_b_unreadable
           ["/root/a.png"] "/root/b.png" ["/root/c.png"] []
           (PermissionError "/root/b.png")); reflexivity.
Defined.

(** C5. A second pass over the same files, from the store the first pass
    left, ends the way the first did and leaves that store as it is. *)
Theorem indexer_idempotent
    (md5 : list Byte.byte -> list Byte.byte) (fs : filesystem)
    (files : list string) (conn : database) :
  processImgs md5 fs files (snd (processImgs md5 fs files conn))
  = (fst (processImgs md5 fs files conn), snd (processImgs md5 fs files conn)).
Proof. apply processImgs_again. intros h H. exact H. Qed.

(** C6. A pass never touches the label stored under a hash the store
    already holds, and a file with such a hash is skipped without a write. *)
Theorem indexer_never_relabels
    (md5 : list Byte.byte -> list Byte.byte) (fs : filesystem)
    (files : list string) (conn : database) (h : string) :
  Sqlite.has_hash h conn = true ->
  stored_labels h (snd (processImgs md5 fs files conn)) = stored_labels h conn /\
  forall f, isImg f = true -> genHash md5 fs f = Ok h ->
    processImgs md5 fs (f :: files) conn = processImgs md5 fs files conn.
Proof.
  intros Hh. split.
  - destruct (processImgs_appends md5 fs files conn) as (added & -> & Hn).
    unfold stored_labels. rewrite filter_app, map_app.
    replace (filter (fun r => String.eqb (fst r) h) added) with (@nil (string * string)).
    + apply app_nil_r.
    + symmetry. induction Hn as [|row added Hrow _ IH]; [reflexivity|].
      simpl. destruct (String.eqb (fst row) h) eqn:E; [|exact IH].
      apply String.eqb_eq in E. rewrite E in Hrow. congruence.
  - intros f Hi Hg. now apply (processImgs_known md5 fs f files conn h).
Qed.

Lemma indexer_never_relabels_witness :
  stored_labels "01" (snd (processImgs plain_digest root_a_b
                             ["/root/a.png"; "/root/b.png"] [("01", "cat")]))
  = stored_labels "01" [("01", "cat")] /\
  forall f, isImg f = true -> genHash plain_digest root_a_b f = Ok "01" ->
    processImgs plain_digest root_a_b (f :: ["/root/a.png"; "/root/b.png"]) [("01", "cat")]
    = processImgs plain_digest root_a_b ["/root/a.png"; "/root/b.png"] [("01", "cat")].
Proof.
  apply (indexer_never_relabels plain_digest root_a_b
           ["/root/a.png"; "/root/b.png"] [("01", "cat")] "01").
  reflexivity.
Defined.

(** ** Store layer *)

(** C4. The values are pasted into the query text, so a quote in a value is
    read as SQL: [hashExist] of [a''b] answers for the hash [a'b], the
    insert of [a''b] stores [a'b], and [hashExist] of [a'b] raises. *)
Theorem quote_in_value_reaches_sql :
  hashExist "a''b" [("a'b", "thing")] = (Ok true, [("a'b", "thing")]) /\
  Sqlite.has_hash "a''b" [("a'b", "thing")] = false /\
  executeQuery (insertQuery "a''b" "thing") [] = (Ok [], [("a'b", "thing")]) /\
  hashExist "a'b" [("a'b", "thing")]
  = (Raise (OperationalError (existsQuery "a'b")), [("a'b", "thing")]).
Proof. repeat split. Qed.

(** ** Reconciler *)

Lemma fileByClass_Ok
    (md5 : list Byte.byte -> list Byte.byte) (fs : filesystem)
    (files : list string) (tableID : string) (conn conn' : database) (d : classDict) :
  fileByClass md5 fs files tableID conn = (Ok d, conn') ->
  conn' = conn /\ fileByClass_loop md5 fs (fetched conn) files [] = Ok d.
Proof.
  unfold fileByClass, bind, executeQuery, lift, Sqlite.parse.
  replace (String.eqb ("SELECT imageClass, hash FROM " ++ tableID) Sqlite.create_media)
    with false by reflexivity.
  replace (PyStr.strip_prefix Sqlite.insert_head ("SELECT imageClass, hash FROM " ++ tableID))
    with (@None string) by reflexivity.
  replace (PyStr.strip_prefix Sqlite.exists_head ("SELECT imageClass, hash FROM " ++ tableID))
    with (@None string) by reflexivity.
  destruct (String.eqb _ Sqlite.select_all); [|discriminate].
  cbn [Sqlite.run]. fold (fetched conn). intros H. injection H as H <-. now split.
Qed.

(** C9. When the generator yields no path twice, no path occurs twice in
    the lists of the returned dictionary, across all labels. *)
Theorem reconciler_paths_once
    (md5 : list Byte.byte -> list Byte.byte) (fs : filesystem)
    (files : list string) (tableID : string) (conn conn' : database) (d : classDict) :
  NoDup files ->
  fileByClass md5 fs files tableID conn = (Ok d, conn') ->
  NoDup (all_paths d).
Proof.
  intros Hnd H. apply fileByClass_Ok in H as [_ H].
  apply fileByClass_loop_paths in H as (_ & Hd & _). now apply Hd.
Qed.

Lemma reconciler_paths_once_witness :
  NoDup (all_paths [("thing", ["/root/a.png"; "/root/b.png"])]).
Proof.
  apply (reconciler_paths_once plain_digest root_a_b
           ["/root/a.png"; "/root/b.png"] "media"
           [("01", "thing"); ("02", "thing")] [("01", "thing"); ("02", "thing")]).
  - repeat constructor; simpl; intuition discriminate.
  - reflexivity.
Defined.

(** C3, as the code has it.  A path the generator does not yield is in no
    list of the returned dictionary, while the label of every stored pair,
    stale or not, is one of its keys; and with every yielded image readable
    the call returns. *)
Theorem removed_file_absent
    (md5 : list Byte.byte -> list Byte.byte) (fs : filesystem)
    (files : list string) (conn : database) (p : string) :
  ~ In p files ->
  (forall d conn', fileByClass md5 fs files "media" conn = (Ok d, conn') ->
     ~ In p (all_paths d) /\
     forall row, In row conn -> dict_has (snd row) d = true) /\
  ((forall f, In f files -> isImg f = true -> exists h, genHash md5 fs f = Ok h) ->
   exists d, fileByClass md5 fs files "media" conn = (Ok d, conn)).
Proof.
  intros Hp. split.
  - intros d conn' H. apply fileByClass_Ok in H as [_ H].
    apply fileByClass_loop_paths in H as (Hin & _ & Hkeys). split.
    + intros Hd. destruct (Hin p Hd) as [[]|Hf]. now apply Hp.
    + intros row Hrow. rewrite Hkeys. simpl. apply existsb_exists.
      exists row. split; [exact Hrow|apply String.eqb_refl].
  - intros Hr. rewrite fileByClass_media.
    destruct (fileByClass_loop_returns md5 fs conn files [] Hr) as (d & ->).
    now exists d.
Qed.

Lemma removed_file_absent_witness :
  exists d,
    fileByClass plain_digest root_a_b ["/root/b.png"] "media"
      [("01", "thing"); ("02", "thing")]
    = (Ok d, [("01", "thing"); ("02", "thing")]) /\
    ~ In "/root/a.png" (all_paths d).
Proof.
  assert (Hp : ~ In "/root/a.png" ["/root/b.png"]) by (simpl; intuition discriminate).
  destruct (removed_file_absent plain_digest root_a_b ["/root/b.png"]
              [("01", "thing"); ("02", "thing")] "/root/a.png" Hp) as [Ha Hb].
  assert (Hr : forall f, In f ["/root/b.png"] -> isImg f = true ->
                 exists h, genHash plain_digest root_a_b f = Ok h).
  { intros f [<-|[]] _. now exists "02". }
  destruct (Hb Hr) as (d & E). exists d. split; [exact E|].
  exact (proj1 (Ha d _ E)).
Defined.

(** C3, as stated: after [/root/a.png] was indexed and then removed, the
    reconciliation does not return the empty dictionary; the label of the
    stale pair is left in it, with an empty list. *)
Lemma removed_file_leaves_label :
  classifyPath plain_digest root_a "/root" []
  = Ok ([("thing", ["/root/a.png"])], [("01", "thing")]) /\
  classifyPath plain_digest root_empty "/root" [("01", "thing")]
  = Ok ([("thing", [])], [("01", "thing")]) /\
  classifyPath plain_digest root_empty "/root" [("01", "thing")]
  <> Ok ([], [("01", "thing")]).
Proof. repeat split. discriminate. Qed.

(** Two rows fetched in the order opposite to the traversal: the lookup of
    the first draws both files, the lookup of the second finds the generator
    empty. *)
Lemma fileByClass_loop_opposite_order
    (md5 : list Byte.byte -> list Byte.byte) (fs : filesystem)
    (a b ha hb c : string) :
  isImg a = true -> isImg b = true ->
  genHash md5 fs a = Ok ha -> genHash md5 fs b = Ok hb -> ha <> hb ->
  fileByClass_loop md5 fs (fetched [(hb, c); (ha, c)]) [a; b] [] = Ok [(c, [b])].
Proof.
  intros Ha Hb Ga Gb Hne.
  cbn [fetched map fst snd]. rewrite fileByClass_loop_row.
  rewrite (detect_miss md5 fs a [b] ha hb Ha Ga Hne).
  rewrite (detect_hit md5 fs b [] hb Hb Gb).
  rewrite fileByClass_loop_row. cbn [detectFileWithHash fileByClass_loop].
  unfold after_row. cbn [dict_has existsb negb dict_new_key app].
  destruct (String.eqb b EmptyString) eqn:E.
  - apply String.eqb_eq in E. subst b. discriminate.
  - cbn [dict_append fst]. rewrite String.eqb_refl.
    cbn [dict_has existsb fst]. rewrite String.eqb_refl. reflexivity.
Qed.

(** C1. Two records stored in the order opposite to the traversal: the
    lookup of the first draws both files from the generator, and the second
    record, whose file [a] is in the traversal, is not resolved. *)
Theorem reconciler_skips_drawn_files
    (md5 : list Byte.byte -> list Byte.byte) (fs : filesystem)
    (a b ha hb c : string) :
  isImg a = true -> isImg b = true ->
  genHash md5 fs a = Ok ha -> genHash md5 fs b = Ok hb -> ha <> hb ->
  fileByClass md5 fs [a; b] "media" [(hb, c); (ha, c)]
  = (Ok [(c, [b])], [(hb, c); (ha, c)]).
Proof.
  intros Ha Hb Ga Gb Hne. rewrite fileByClass_media. f_equal.
  now apply fileByClass_loop_opposite_order.
Qed.

Lemma reconciler_skips_drawn_files_witness :
  fileByClass plain_digest root_a_b ["/root/a.png"; "/root/b.png"] "media"
    [("02", "thing"); ("01", "thing")]
  = (Ok [("thing", ["/root/b.png"])], [("02", "thing"); ("01", "thing")]).
Proof.
  apply (reconciler_skips_drawn_files plain_digest root_a_b
           "/root/a.png" "/root/b.png" "01" "02" "thing");
    try reflexivity.
  discriminate.
Defined.

Lemma createTable_media (conn : database) :
  createTable "media" ["hash TEXT PRIMARY KEY"; "imageClass TEXT"] conn = (Ok tt, conn).
Proof. reflexivity. Qed.

(** C2. The store holds [b] from an earlier run and [a] now comes before
    [b] in the traversal: the run indexes [a] and does not resolve it, and
    neither does the next run over the untouched directory. *)
Theorem round_trip_loses_file
    (md5 : list Byte.byte -> list Byte.byte) (fs : filesystem)
    (home a b ha hb : string) :
  rglob fs home = [a; b] ->
  isImg a = true -> isImg b = true ->
  genHash md5 fs a = Ok ha -> genHash md5 fs b = Ok hb -> ha <> hb ->
  classifyPath md5 fs home [(hb, "thing")]
  = Ok ([("thing", [b])], [(hb, "thing"); (ha, "thing")]) /\
  classifyPath md5 fs home [(hb, "thing"); (ha, "thing")]
  = Ok ([("thing", [b])], [(hb, "thing"); (ha, "thing")]).
Proof.
  intros Hls Ha Hb Ga Gb Hne.
  assert (Hfiles : imgPaths fs home = [a; b]).
  { unfold imgPaths. rewrite Hls. simpl. now rewrite Ha, Hb. }
  assert (Hab : String.eqb hb ha = false).
  { apply String.eqb_neq. congruence. }
  assert (Hrec := fileByClass_loop_opposite_order md5 fs a b ha hb "thing" Ha Hb Ga Gb Hne).
  unfold classifyPath. rewrite Hfiles. unfold bind. rewrite !createTable_media.
  cbv beta iota. split.
  - rewrite (processImgs_new md5 fs a [b] [(hb, "thing")] ha Ha Ga)
      by (simpl; now rewrite Hab).
    rewrite (processImgs_known md5 fs b [] _ hb Hb Gb)
      by (simpl; now rewrite String.eqb_refl).
    cbn [processImgs ret app]. unfold classifyImg.
    now rewrite fileByClass_media, Hrec.
  - rewrite (processImgs_known md5 fs a [b] _ ha Ha Ga)
      by (simpl; rewrite String.eqb_refl; apply orb_true_r).
    rewrite (processImgs_known md5 fs b [] _ hb Hb Gb)
      by (simpl; now rewrite String.eqb_refl).
    cbn [processImgs ret]. now rewrite fileByClass_media, Hrec.
Qed.

Lemma round_trip_loses_file_witness :
  classifyPath plain_digest root_a_b "/root" [("02", "thing")]
  = Ok ([("thing", ["/root/b.png"])], [("02", "thing"); ("01", "thing")]) /\
  classifyPath plain_digest root_a_b "/root" [("02", "thing"); ("01", "thing")]
  = Ok ([("thing", ["/root/b.png"])], [("02", "thing"); ("01", "thing")]).
Proof.
  apply (round_trip_loses_file plain_digest root_a_b
           "/root" "/root/a.png" "/root/b.png" "01" "02");
    try reflexivity.
  discriminate.
Defined.

(** * Further properties *)

(** ** [rfind] and [splitext] *)

Lemma length_app_Z (a b : string) :
  Z.of_nat (String.length (a ++ b))
  = Z.of_nat (String.length a) + Z.of_nat (String.length b).
Proof. induction a as [|x a IH]; simpl String.length; lia. Qed.

Lemma rfind_from_range (c : ascii) (s : string) (i : Z) :
  0 <= i ->
  PyStr.rfind_from c s i = -1 \/
  (i <= PyStr.rfind_from c s i < i + Z.of_nat (String.length s)).
Proof.
  revert i; induction s as [|a r IH]; intros i Hi; [now left|].
  cbn [PyStr.rfind_from String.length].
  destruct (IH (i + 1) ltac:(lia)) as [E|E].
  - rewrite E. cbn [Z.leb Z.compare]. destruct (Ascii.eqb a c); [right; lia|now left].
  - destruct (Z.leb_spec 0 (PyStr.rfind_from c r (i + 1))); [right; lia|lia].
Qed.

Lemma rfind_from_absent (c : ascii) (s : string) (i : Z) :
  contains c s = false -> PyStr.rfind_from c s i = -1.
Proof.
  revert i; induction s as [|a r IH]; intros i H; [reflexivity|].
  cbn [contains] in H. apply orb_false_iff in H as [Ha Hr].
  cbn [PyStr.rfind_from]. now rewrite (IH _ Hr), Ha.
Qed.

Lemma rfind_from_present (c : ascii) (s : string) (i : Z) :
  contains c s = true -> 0 <= i -> i <= PyStr.rfind_from c s i.
Proof.
  revert i; induction s as [|a r IH]; intros i H Hi; [discriminate|].
  cbn [contains] in H. cbn [PyStr.rfind_from].
  destruct (contains c r) eqn:Hr.
  - specialize (IH (i + 1) eq_refl ltac:(lia)).
    destruct (Z.leb_spec 0 (PyStr.rfind_from c r (i + 1))); lia.
  - rewrite (rfind_from_absent c r _ Hr). cbn [Z.leb Z.compare].
    rewrite orb_false_r in H. rewrite H. lia.
Qed.

(** The index found in [s], read as a suffix that starts at [i]. *)
Lemma rfind_from_shift (c : ascii) (s : string) (i : Z) :
  0 <= i ->
  PyStr.rfind_from c s i
  = if contains c s then PyStr.rfind c s + i else -1.
Proof.
  unfold PyStr.rfind. revert i; induction s as [|a r IH]; intros i Hi; [reflexivity|].
  cbn [contains PyStr.rfind_from]. rewrite (IH (i + 1)), (IH (0 + 1)) by lia.
  destruct (contains c r) eqn:Hr.
  - pose proof (rfind_from_present c r 0 Hr ltac:(lia)) as H0.
    rewrite orb_true_r.
    destruct (Z.leb_spec 0 (PyStr.rfind_from c r 0 + (i + 1)));
      destruct (Z.leb_spec 0 (PyStr.rfind_from c r 0 + (0 + 1))); lia.
  - cbn [Z.leb Z.compare]. rewrite orb_false_r. destruct (Ascii.eqb a c); lia.
Qed.

Lemma rfind_from_app (c : ascii) (a b : string) (i : Z) :
  0 <= i ->
  PyStr.rfind_from c (a ++ b) i
  = if contains c b then PyStr.rfind_from c b (i + Z.of_nat (String.length a))
    else PyStr.rfind_from c a i.
Proof.
  revert i; induction a as [|x a IH]; intros i Hi.
  - cbn [append String.length Z.of_nat PyStr.rfind_from]. rewrite Z.add_0_r.
    destruct (contains c b) eqn:Hb; [reflexivity|now apply rfind_from_absent].
  - cbn [append PyStr.rfind_from]. rewrite (IH (i + 1)) by lia.
    destruct (contains c b) eqn:Hb; [|reflexivity].
    replace (i + 1 + Z.of_nat (String.length a))
      with (i + Z.of_nat (String.length (String x a)))
      by (cbn [String.length]; lia).
    pose proof (rfind_from_present c b (i + Z.of_nat (String.length (String x a))) Hb
                  ltac:(lia)) as H.
    destruct (Z.leb_spec 0 (PyStr.rfind_from c b (i + Z.of_nat (String.length (String x a)))));
      [reflexivity|lia].
Qed.

Lemma drop_app_length (a b : string) (k : nat) :
  PyStr.drop (String.length a + k) (a ++ b) = PyStr.drop k b.
Proof. induction a as [|x a IH]; [reflexivity|exact IH]. Qed.

Lemma slice1_app_length (a b : string) (j : Z) :
  0 <= j ->
  PyStr.slice1 (a ++ b) (j + Z.of_nat (String.length a)) = PyStr.slice1 b j.
Proof.
  intros Hj. unfold PyStr.slice1.
  destruct (Z.ltb_spec (j + Z.of_nat (String.length a)) 0); [lia|].
  destruct (Z.ltb_spec j 0); [lia|].
  replace (Z.to_nat (j + Z.of_nat (String.length a)))
    with (String.length a + Z.to_nat j)%nat by lia.
  now rewrite drop_app_length.
Qed.

(** The loop of [splitext] sees only the text after a prefix it starts
    behind. *)
Lemma splitext_loop_after_prefix (a b : string) (dotIndex j : Z) (steps : nat) :
  0 <= j -> 0 <= dotIndex ->
  snd (splitext_loop (a ++ b) (dotIndex + Z.of_nat (String.length a))
         (j + Z.of_nat (String.length a)) steps)
  = snd (splitext_loop b dotIndex j steps).
Proof.
  revert j; induction steps as [|n IH]; intros j Hj Hd; [reflexivity|].
  cbn [splitext_loop].
  replace (j + Z.of_nat (String.length a) <? dotIndex + Z.of_nat (String.length a))
    with (j <? dotIndex)
    by (destruct (Z.ltb_spec j dotIndex);
        destruct (Z.ltb_spec (j + Z.of_nat (String.length a))
                    (dotIndex + Z.of_nat (String.length a))); lia).
  destruct (j <? dotIndex); [|reflexivity].
  rewrite (slice1_app_length a b j Hj).
  destruct (negb _).
  - cbn [snd].
    replace (Z.to_nat (dotIndex + Z.of_nat (String.length a)))
      with (String.length a + Z.to_nat dotIndex)%nat by lia.
    apply drop_app_length.
  - replace (j + Z.of_nat (String.length a) + 1)
      with ((j + 1) + Z.of_nat (String.length a)) by lia.
    apply IH; lia.
Qed.

Lemma contains_app (c : ascii) (a b : string) :
  contains c (a ++ b) = contains c a || contains c b.
Proof.
  induction a as [|x a IH]; [reflexivity|].
  cbn [append contains]. now rewrite IH, orb_assoc.
Qed.

Lemma length_slash (dir : string) :
  Z.of_nat (String.length (dir ++ "/")) = Z.of_nat (String.length dir) + 1.
Proof. rewrite length_app_Z. reflexivity. Qed.

(** The extension is that of the last component of the path. *)
Lemma extension_after_slash (dir name : string) :
  contains "/" name = false ->
  extension ((dir ++ "/") ++ name) = extension name.
Proof.
  intros Hn. unfold extension, splitext, PyStr.rfind.
  set (L := Z.of_nat (String.length (dir ++ "/"))).
  assert (HL : 1 <= L) by (unfold L; rewrite length_slash; lia).
  assert (Hsep : PyStr.rfind_from "/" ((dir ++ "/") ++ name) 0 = L - 1).
  { rewrite rfind_from_app, Hn by lia.
    rewrite rfind_from_app by lia. cbn [contains Ascii.eqb Bool.eqb orb].
    cbn [PyStr.rfind_from Z.leb Z.compare Ascii.eqb Bool.eqb].
    unfold L. rewrite length_slash. lia. }
  rewrite Hsep, (rfind_from_absent "/" name 0 Hn).
  rewrite rfind_from_app by lia. fold L.
  destruct (contains "." name) eqn:Hd.
  - rewrite (rfind_from_shift "." name (0 + L)), Hd by lia.
    pose proof (rfind_from_present "." name 0 Hd ltac:(lia)) as H0.
    fold (PyStr.rfind "." name) in H0 |- *.
    destruct (Z.ltb_spec (L - 1) (PyStr.rfind "." name + (0 + L))); [|lia].
    destruct (Z.ltb_spec (-1) (PyStr.rfind "." name)); [|lia].
    replace (PyStr.rfind "." name + (0 + L)) with (PyStr.rfind "." name + L) by lia.
    replace (L - 1 + 1) with (0 + L) by lia.
    replace (Z.to_nat (PyStr.rfind "." name + L - (L - 1)))
      with (Z.to_nat (PyStr.rfind "." name - -1)) by lia.
    replace (-1 + 1) with 0 by lia.
    apply splitext_loop_after_prefix; lia.
  - rewrite (rfind_from_absent "." name 0 Hd). cbn [Z.ltb Z.compare snd].
    destruct (rfind_from_range "." (dir ++ "/") 0 ltac:(lia)) as [E|E].
    + rewrite E. destruct (Z.ltb_spec (L - 1) (-1)); [lia|reflexivity].
    + assert (Hlast : PyStr.rfind_from "." (dir ++ "/") 0 < L - 1).
      { rewrite rfind_from_app in E |- * by lia.
        cbn [contains Ascii.eqb Bool.eqb orb] in E |- *.
        destruct (rfind_from_range "." dir 0 ltac:(lia)) as [E'|E'];
          unfold L; rewrite length_slash; lia. }
      destruct (Z.ltb_spec (L - 1) (PyStr.rfind_from "." (dir ++ "/") 0));
        [lia|reflexivity].
Qed.

Lemma append_assoc (a b c : string) : (a ++ b) ++ c = a ++ b ++ c.
Proof. induction a as [|x a IH]; [reflexivity|]. cbn [append]. now rewrite IH. Qed.

(** X1. Whether a path is an image path depends on its last component
    only. *)
Theorem isImg_last_component (dir name : string) :
  contains "/" name = false ->
  isImg (dir ++ "/" ++ name) = isImg name.
Proof.
  intros Hn. rewrite <- append_assoc, !isImg_extension.
  now rewrite extension_after_slash.
Qed.

Lemma isImg_last_component_witness :
  isImg ("/home/u.png/pics" ++ "/" ++ "cat.JPG") = isImg "cat.JPG".
Proof. apply (isImg_last_component "/home/u.png/pics" "cat.JPG"). reflexivity. Defined.

Lemma splitext_loop_leading_dots (p : string) (dotIndex j : Z) (steps : nat) :
  (forall k, j <= k < dotIndex -> PyStr.slice1 p k = ".") ->
  snd (splitext_loop p dotIndex j steps) = EmptyString.
Proof.
  revert j; induction steps as [|n IH]; intros j H; [reflexivity|].
  cbn [splitext_loop]. destruct (Z.ltb_spec j dotIndex); [|reflexivity].
  rewrite (H j) by lia. cbn [String.eqb Ascii.eqb Bool.eqb negb].
  apply IH. intros k Hk. apply H. lia.
Qed.

Lemma slice_of_dots (n m : nat) (rest : string) :
  (m < n)%nat -> PyStr.take 1 (PyStr.drop m (dots n ++ rest)) = ".".
Proof.
  revert m; induction n as [|n IH]; intros m Hm; [lia|].
  destruct m as [|m]; [reflexivity|].
  cbn [dots append PyStr.drop]. apply IH. lia.
Qed.

Lemma contains_dots (c : ascii) (n : nat) :
  Ascii.eqb "." c = false -> contains c (dots n) = false.
Proof. intros H. induction n as [|n IH]; [reflexivity|]. cbn [dots contains]. now rewrite H. Qed.

Lemma length_dots (n : nat) : String.length (dots n) = n.
Proof. induction n as [|n IH]; [reflexivity|]. cbn [dots String.length]. now rewrite IH. Qed.

Lemma extension_leading_dots (n : nat) (rest : string) :
  contains "." rest = false -> contains "/" rest = false ->
  extension (dots n ++ rest) = EmptyString.
Proof.
  intros Hd Hs. unfold extension, splitext, PyStr.rfind.
  rewrite (rfind_from_absent "/" (dots n ++ rest) 0)
    by (rewrite contains_app, Hs, contains_dots; reflexivity).
  rewrite rfind_from_app, Hd by lia.
  destruct (Z.ltb_spec (-1) (PyStr.rfind_from "." (dots n) 0)); [|reflexivity].
  apply splitext_loop_leading_dots. intros k Hk.
  destruct (rfind_from_range "." (dots n) 0 ltac:(lia)) as [E|E]; [lia|].
  rewrite length_dots in E. unfold PyStr.slice1.
  destruct (Z.ltb_spec k 0); [lia|].
  apply slice_of_dots. lia.
Qed.

(** X2. A last component that is dots followed by text without a dot has
    no extension: [.png] and [..jpg] are not image paths. *)
Theorem dotfile_is_no_image (dir : string) (n : nat) (rest : string) :
  contains "." rest = false -> contains "/" rest = false ->
  isImg (dots n ++ rest) = false /\
  isImg (dir ++ "/" ++ dots n ++ rest) = false.
Proof.
  intros Hd Hs.
  assert (H : isImg (dots n ++ rest) = false)
    by (rewrite isImg_extension, extension_leading_dots by assumption; reflexivity).
  split; [exact H|].
  rewrite <- append_assoc, isImg_extension, extension_after_slash, <- isImg_extension.
  - exact H.
  - rewrite contains_app, Hs, contains_dots; reflexivity.
Qed.

Lemma dotfile_is_no_image_witness :
  isImg (dots 1 ++ "png") = false /\
  isImg ("/root" ++ "/" ++ dots 1 ++ "png") = false.
Proof. apply (dotfile_is_no_image "/root" 1 "png"); reflexivity. Defined.

(** ** Letter case *)

Lemma lower_char_keeps (c a : ascii) :
  PyStr.lower_char c = c ->
  (forall b, PyStr.lower_char b = c -> b = c) ->
  Ascii.eqb (PyStr.lower_char a) c = Ascii.eqb a c.
Proof.
  intros Hc Hinj. destruct (Ascii.eqb a c) eqn:E.
  - apply Ascii.eqb_eq in E. subst a. rewrite Hc. apply Ascii.eqb_refl.
  - apply Ascii.eqb_neq. intros H. apply Hinj in H. subst a.
    now rewrite Ascii.eqb_refl in E.
Qed.

Lemma lower_char_dot (a : ascii) :
  Ascii.eqb (PyStr.lower_char a) "." = Ascii.eqb a ".".
Proof.
  apply lower_char_keeps; [reflexivity|].
  intros b. destruct b as [[] [] [] [] [] [] [] []]; vm_compute; congruence.
Qed.

Lemma lower_char_slash (a : ascii) :
  Ascii.eqb (PyStr.lower_char a) "/" = Ascii.eqb a "/".
Proof.
  apply lower_char_keeps; [reflexivity|].
  intros b. destruct b as [[] [] [] [] [] [] [] []]; vm_compute; congruence.
Qed.

Lemma lower_char_idem (a : ascii) :
  PyStr.lower_char (PyStr.lower_char a) = PyStr.lower_char a.
Proof. destruct a as [[] [] [] [] [] [] [] []]; reflexivity. Qed.

Lemma lower_idem (s : string) : PyStr.lower (PyStr.lower s) = PyStr.lower s.
Proof.
  induction s as [|a s IH]; [reflexivity|].
  cbn [PyStr.lower]. now rewrite lower_char_idem, IH.
Qed.

Lemma rfind_from_lower (c : ascii) (s : string) (i : Z) :
  (forall a, Ascii.eqb (PyStr.lower_char a) c = Ascii.eqb a c) ->
  PyStr.rfind_from c (PyStr.lower s) i = PyStr.rfind_from c s i.
Proof.
  intros Hc. revert i; induction s as [|a s IH]; intros i; [reflexivity|].
  cbn [PyStr.lower PyStr.rfind_from]. now rewrite IH, Hc.
Qed.

Lemma take_lower (k : nat) (s : string) :
  PyStr.take k (PyStr.lower s) = PyStr.lower (PyStr.take k s).
Proof.
  revert s; induction k as [|k IH]; intros [|a s]; try reflexivity.
  cbn [PyStr.lower PyStr.take]. now rewrite IH.
Qed.

Lemma drop_lower (k : nat) (s : string) :
  PyStr.drop k (PyStr.lower s) = PyStr.lower (PyStr.drop k s).
Proof.
  revert s; induction k as [|k IH]; intros [|a s]; try reflexivity.
  cbn [PyStr.lower PyStr.drop]. apply IH.
Qed.

Lemma slice1_lower_dot (s : string) (i : Z) :
  String.eqb (PyStr.slice1 (PyStr.lower s) i) "."
  = String.eqb (PyStr.slice1 s i) ".".
Proof.
  unfold PyStr.slice1. destruct (i <? 0); [reflexivity|].
  rewrite drop_lower, take_lower.
  destruct (PyStr.take 1 (PyStr.drop (Z.to_nat i) s)) as [|a [|b r]]; try reflexivity.
  - cbn [PyStr.lower String.eqb]. now rewrite lower_char_dot.
  - cbn [PyStr.lower String.eqb]. rewrite lower_char_dot.
    now destruct (Ascii.eqb a ".").
Qed.

Lemma splitext_loop_lower (p : string) (dotIndex j : Z) (steps : nat) :
  snd (splitext_loop (PyStr.lower p) dotIndex j steps)
  = PyStr.lower (snd (splitext_loop p dotIndex j steps)).
Proof.
  revert j; induction steps as [|n IH]; intros j; [reflexivity|].
  cbn [splitext_loop]. destruct (j <? dotIndex); [|reflexivity].
  rewrite slice1_lower_dot. destruct (negb _); [|apply IH].
  cbn [snd]. apply drop_lower.
Qed.

Lemma extension_lower (p : string) :
  extension (PyStr.lower p) = PyStr.lower (extension p).
Proof.
  unfold extension, splitext, PyStr.rfind.
  rewrite !rfind_from_lower by (apply lower_char_slash || apply lower_char_dot).
  destruct (_ <? _); [apply splitext_loop_lower|reflexivity].
Qed.

(** X3. Paths that differ in the case of ASCII letters only are image
    paths together. *)
Theorem isImg_ignores_case (p q : string) :
  PyStr.lower p = PyStr.lower q -> isImg p = isImg q.
Proof.
  intros H. rewrite !isImg_extension.
  rewrite <- (lower_idem (extension p)), <- (lower_idem (extension q)).
  now rewrite <- !extension_lower, H.
Qed.

Lemma isImg_ignores_case_witness : isImg "/Root/Cat.PnG" = isImg "/root/cat.png".
Proof. apply (isImg_ignores_case "/Root/Cat.PnG" "/root/cat.png"). reflexivity. Defined.

(** ** The database file *)

Lemma drop_last_slash (a : string) :
  String.eqb (PyStr.drop (String.length a - 1) a) "/" = true ->
  exists dir, a = dir ++ "/".
Proof.
  intros H. apply String.eqb_eq in H.
  exists (PyStr.take (String.length a - 1) a).
  rewrite <- H. symmetry. apply take_drop.
Qed.

(** X4. The database file of [classifyPath] lies in the directory the
    Scanner walks, and is no image path, whatever the home directory. *)
Theorem dbPath_is_no_image (home : string) : isImg (dbPath home) = false.
Proof.
  unfold dbPath, path_join. cbn [PyStr.strip_prefix Ascii.eqb Bool.eqb].
  destruct (String.eqb home EmptyString) eqn:E.
  - apply String.eqb_eq in E. now subst home.
  - cbn [orb]. destruct (String.eqb (PyStr.drop _ home) "/") eqn:El.
    + destruct (drop_last_slash home El) as (dir & ->).
      rewrite isImg_extension, extension_after_slash; reflexivity.
    + rewrite <- append_assoc, isImg_extension, extension_after_slash; reflexivity.
Qed.

(** ** One lookup, exactly *)

Section Lookup.

Variable md5 : list Byte.byte -> list Byte.byte.
Variable fs : filesystem.

Lemma detect_passes_over (skipped rest : list string) (target : string) :
  Forall (passed_over md5 fs target) skipped ->
  detectFileWithHash md5 fs (skipped ++ rest) target
  = detectFileWithHash md5 fs rest target.
Proof.
  induction 1 as [|f skipped Hf _ IH]; [reflexivity|].
  rewrite <- app_comm_cons. destruct (isImg f) eqn:Hi.
  - destruct (Hf Hi) as (h & Hg & Hne).
    now rewrite (detect_miss md5 fs f _ h target Hi Hg Hne).
  - now rewrite (detect_other md5 fs f _ target Hi).
Qed.

Lemma detect_Some_inv (files : list string) (target p : string) (rest : list string) :
  detectFileWithHash md5 fs files target = Ok (Some p, rest) ->
  exists skipped,
    files = (skipped ++ p :: rest)%list /\
    Forall (passed_over md5 fs target) skipped /\
    isImg p = true /\ genHash md5 fs p = Ok target.
Proof.
  revert rest; induction files as [|f files IH]; intros rest; [discriminate|].
  cbn [detectFileWithHash]. destruct (isImg f) eqn:Hi; cbn [negb].
  - destruct (genHash md5 fs f) as [h|e] eqn:Hg; [|discriminate].
    destruct (String.eqb h target) eqn:E.
    + intros H. injection H as -> ->. apply String.eqb_eq in E. subst h.
      exists []. repeat split; auto.
    + intros H. destruct (IH _ H) as (sk & -> & Hsk & Hp).
      exists (f :: sk). repeat split; try apply Hp.
      constructor; [|exact Hsk]. intros _. exists h. split; [exact Hg|].
      now apply String.eqb_neq.
  - intros H. destruct (IH _ H) as (sk & -> & Hsk & Hp).
    exists (f :: sk). repeat split; try apply Hp.
    constructor; [|exact Hsk]. intros Hi'. congruence.
Qed.

Lemma detect_None_inv (files : list string) (target : string) (rest : list string) :
  detectFileWithHash md5 fs files target = Ok (None, rest) ->
  rest = [] /\ Forall (passed_over md5 fs target) files.
Proof.
  induction files as [|f files IH]; cbn [detectFileWithHash].
  - intros [= <-]. now split.
  - destruct (isImg f) eqn:Hi; cbn [negb].
    + destruct (genHash md5 fs f) as [h|e] eqn:Hg; [|discriminate].
      destruct (String.eqb h target) eqn:E; [discriminate|].
      intros H. destruct (IH H) as [-> Hall]. split; [reflexivity|].
      constructor; [|exact Hall]. intros _. exists h. split; [exact Hg|].
      now apply String.eqb_neq.
    + intros H. destruct (IH H) as [-> Hall]. split; [reflexivity|].
      constructor; [|exact Hall]. intros Hi'. congruence.
Qed.

Lemma detect_Raise_inv (files : list string) (target : string) (e : exn) :
  detectFileWithHash md5 fs files target = Raise e ->
  exists skipped f post,
    files = (skipped ++ f :: post)%list /\
    Forall (passed_over md5 fs target) skipped /\
    isImg f = true /\ genHash md5 fs f = Raise e.
Proof.
  induction files as [|f files IH]; cbn [detectFileWithHash]; [discriminate|].
  destruct (isImg f) eqn:Hi; cbn [negb].
  - destruct (genHash md5 fs f) as [h|e'] eqn:Hg.
    + destruct (String.eqb h target) eqn:E; [discriminate|].
      intros H. destruct (IH H) as (sk & g & post & -> & Hsk & Hg').
      exists (f :: sk), g, post. repeat split; try apply Hg'.
      constructor; [|exact Hsk]. intros _. exists h. split; [exact Hg|].
      now apply String.eqb_neq.
    + intros [= ->]. exists [], f, files. repeat split; auto.
  - intros H. destruct (IH H) as (sk & g & post & -> & Hsk & Hg').
    exists (f :: sk), g, post. repeat split; try apply Hg'.
    constructor; [|exact Hsk]. intros Hi'. congruence.
Qed.

(** X5. A lookup returns a file exactly when it is the first image file of
    the generator with the wanted hash and every image file before it could
    be read; the generator is left right after that file. *)
Theorem detect_finds_first (files : list string) (target p : string) (rest : list string) :
  detectFileWithHash md5 fs files target = Ok (Some p, rest)
  <-> exists skipped,
        files = (skipped ++ p :: rest)%list /\
        Forall (passed_over md5 fs target) skipped /\
        isImg p = true /\ genHash md5 fs p = Ok target.
Proof.
  split; [apply detect_Some_inv|].
  intros (sk & -> & Hsk & Hi & Hg).
  rewrite (detect_passes_over sk _ target Hsk).
  now apply detect_hit.
Qed.

(** X6. A lookup returns [None] exactly when it passes over every file of
    the generator, which it leaves empty; it raises exactly what reading the
    first unreadable image file raises, when no earlier file has the hash. *)
Theorem detect_misses_or_raises (files : list string) (target : string) :
  (forall rest,
     detectFileWithHash md5 fs files target = Ok (None, rest)
     <-> rest = [] /\ Forall (passed_over md5 fs target) files) /\
  (forall e,
     detectFileWithHash md5 fs files target = Raise e
     <-> exists skipped f post,
           files = (skipped ++ f :: post)%list /\
           Forall (passed_over md5 fs target) skipped /\
           isImg f = true /\ genHash md5 fs f = Raise e).
Proof.
  split.
  - intros rest. split; [apply detect_None_inv|].
    intros [-> Hall]. rewrite <- (app_nil_r files).
    now rewrite (detect_passes_over files [] target Hall).
  - intros e. split; [apply detect_Raise_inv|].
    intros (sk & f & post & -> & Hsk & Hi & Hg).
    rewrite (detect_passes_over sk _ target Hsk).
    cbn [detectFileWithHash]. now rewrite Hi, Hg.
Qed.

(** ** Paths that are no image paths *)

Lemma detect_filtered (files : list string) (target : string) :
  detectFileWithHash md5 fs (filter isImg files) target
  = match detectFileWithHash md5 fs files target with
    | Ok (r, rest) => Ok (r, filter isImg rest)
    | Raise e => Raise e
    end.
Proof.
  induction files as [|f files IH]; [reflexivity|].
  cbn [filter detectFileWithHash]. destruct (isImg f) eqn:Hi; cbn [negb]; [|exact IH].
  cbn [detectFileWithHash]. rewrite Hi. cbn [negb].
  destruct (genHash md5 fs f) as [h|e]; [|reflexivity].
  destruct (String.eqb h target); [reflexivity|exact IH].
Qed.

Lemma fileByClass_loop_filtered (rows : list (list sqlvalue)) (files : list string)
    (d : classDict) :
  fileByClass_loop md5 fs rows (filter isImg files) d
  = fileByClass_loop md5 fs rows files d.
Proof.
  revert files d; induction rows as [|row rows IH]; intros files d; [reflexivity|].
  destruct row as [|[z|c] [|[z'|h] [|v row]]]; try reflexivity.
  rewrite !fileByClass_loop_row, detect_filtered.
  destruct (detectFileWithHash md5 fs files h) as [[r rest]|e]; [apply IH|reflexivity].
Qed.

(** X7. The Indexer and the Reconciler never open a path that is no image
    path: handing them an unfiltered enumeration gives what the filtered one
    gives, store and result alike. *)
Theorem passes_ignore_other_paths (files : list string) (tableID : string) (conn : database) :
  processImgs md5 fs (filter isImg files) conn = processImgs md5 fs files conn /\
  fileByClass md5 fs (filter isImg files) tableID conn
  = fileByClass md5 fs files tableID conn.
Proof.
  split.
  - revert conn; induction files as [|f files IH]; intros conn; [reflexivity|].
    cbn [filter]. destruct (isImg f) eqn:Hi.
    + cbn [processImgs]. rewrite Hi. cbn [negb]. unfold bind.
      destruct (lift (genHash md5 fs f) conn) as [[h|e] c1]; [|reflexivity].
      destruct (hashExist h c1) as [[[|]|e] c2]; [apply IH| |reflexivity].
      destruct (executeQuery _ c2) as [[rows|e] c3]; [apply IH|reflexivity].
    + now rewrite (processImgs_other md5 fs f files conn Hi).
  - unfold fileByClass, bind.
    destruct (executeQuery _ conn) as [[rows|e] c1]; [|reflexivity].
    unfold lift. now rewrite fileByClass_loop_filtered.
Qed.

End Lookup.

(** ** The Indexer as a whole *)

Section IndexerWhole.

Variable md5 : list Byte.byte -> list Byte.byte.
Variable fs : filesystem.

Ltac pass_step f conn :=
  let Hi := fresh "Hi" in
  let Hg := fresh "Hg" in
  let Hk := fresh "Hk" in
  let h := fresh "h" in
  let e := fresh "e" in
  destruct (isImg f) eqn:Hi;
  [ destruct (genHash md5 fs f) as [h|e] eqn:Hg;
    [ destruct (Sqlite.has_hash h conn) eqn:Hk;
      [ rewrite (processImgs_known md5 fs f _ conn h Hi Hg Hk)
      | rewrite (processImgs_new md5 fs f _ conn h Hi Hg Hk) ]
    | rewrite (processImgs_unreadable md5 fs f _ conn e Hi Hg) ]
  | rewrite (processImgs_other md5 fs f _ conn Hi) ].

Lemma genHash_regular (f : string) :
  (exists h, genHash md5 fs f = Ok h) <-> (exists data, node_at fs f = RegularFile data).
Proof.
  unfold genHash, read_bytes. destruct (node_at fs f); split; intros [x H];
    try discriminate; eauto.
Qed.

(** X8. A pass returns normally exactly when every image path it is handed
    is a regular file that can be read. *)
Theorem processImgs_returns_iff (files : list string) (conn : database) :
  fst (processImgs md5 fs files conn) = Ok tt
  <-> forall f, In f files -> isImg f = true ->
        exists data, node_at fs f = RegularFile data.
Proof.
  revert conn; induction files as [|f files IH]; intros conn.
  - split; [intros _ f []|reflexivity].
  - pass_step f conn.
    + rewrite IH. split.
      * intros H g [<-|Hg']; [intros _; apply genHash_regular; eauto|now apply H].
      * intros H g Hg'. apply H. now right.
    + rewrite IH. split.
      * intros H g [<-|Hg']; [intros _; apply genHash_regular; eauto|now apply H].
      * intros H g Hg'. apply H. now right.
    + split; [discriminate|].
      intros H. destruct (proj2 (genHash_regular f) (H f (or_introl eq_refl) Hi)) as [h Hh].
      congruence.
    + rewrite IH. split.
      * intros H g [<-|Hg']; [congruence|now apply H].
      * intros H g Hg'. apply H. now right.
Qed.

(** X9. After a pass that returned, [hashExist] answers [True] for the hash
    of every image file the pass was handed. *)
Theorem processImgs_stores_every_hash (files : list string) (conn : database) (f h : string) :
  fst (processImgs md5 fs files conn) = Ok tt ->
  In f files -> isImg f = true -> genHash md5 fs f = Ok h ->
  hashExist h (snd (processImgs md5 fs files conn))
  = (Ok true, snd (processImgs md5 fs files conn)).
Proof.
  intros Hok Hin Hi Hg.
  rewrite (hashExist_quote_free h _ (genHash_quote_free md5 fs f h Hg)).
  f_equal. f_equal.
  revert conn Hok; induction files as [|g files IH]; intros conn; [destruct Hin|].
  destruct Hin as [->|Hin].
  - intros _. destruct (Sqlite.has_hash h conn) eqn:Hk.
    + rewrite (processImgs_known md5 fs f _ conn h Hi Hg Hk).
      now apply processImgs_keeps_hashes.
    + rewrite (processImgs_new md5 fs f _ conn h Hi Hg Hk).
      apply processImgs_keeps_hashes. rewrite has_hash_app. simpl.
      rewrite String.eqb_refl. apply orb_true_r.
  - pass_step g conn; try now apply IH.
    discriminate.
Qed.

(** X10. The hashes of the table stay pairwise different: a pass adds no
    row for a hash that has one. *)
Theorem processImgs_keeps_key_unique (files : list string) (conn : database) :
  NoDup (map fst conn) ->
  NoDup (map fst (snd (processImgs md5 fs files conn))).
Proof.
  revert conn; induction files as [|f files IH]; intros conn Hnd; [exact Hnd|].
  pass_step f conn; try (now apply IH); [|exact Hnd].
  apply IH. rewrite map_app. simpl.
  apply (Permutation_NoDup (Permutation_cons_append (map fst conn) h)).
  constructor; [|exact Hnd].
  intros Hin. apply in_map_iff in Hin as (row & E & Hrow).
  assert (Sqlite.has_hash h conn = true); [|congruence].
  apply existsb_exists. exists row. split; [exact Hrow|]. now apply String.eqb_eq.
Qed.

(** X11. Every row of the table after a pass was there before, or holds
    the hash of an image file of the pass and the label the stub gives it. *)
Theorem processImgs_rows_provenance (files : list string) (conn : database)
    (row : string * string) :
  In row (snd (processImgs md5 fs files conn)) ->
  In row conn \/
  exists f, In f files /\ isImg f = true /\
            genHash md5 fs f = Ok (fst row) /\ snd row = classifyImg f.
Proof.
  revert conn; induction files as [|f files IH]; intros conn; [now left|].
  pass_step f conn.
  - intros H. destruct (IH _ H) as [Hc|(g & Hg' & Hgi)]; [now left|right].
    exists g. split; [now right|exact Hgi].
  - intros H. destruct (IH _ H) as [Hc|(g & Hg' & Hgi)].
    + apply in_app_or in Hc as [Hc|[<-|[]]]; [now left|right].
      exists f. repeat split; auto. now left.
    + right. exists g. split; [now right|exact Hgi].
  - now left.
  - intros H. destruct (IH _ H) as [Hc|(g & Hg' & Hgi)]; [now left|right].
    exists g. split; [now right|exact Hgi].
Qed.

End IndexerWhole.

Lemma processImgs_stores_every_hash_witness :
  hashExist "02" (snd (processImgs plain_digest root_a_b ["/root/a.png"; "/root/b.png"] []))
  = (Ok true, snd (processImgs plain_digest root_a_b ["/root/a.png"; "/root/b.png"] [])).
Proof.
  apply (processImgs_stores_every_hash plain_digest root_a_b
           ["/root/a.png"; "/root/b.png"] [] "/root/b.png" "02").
  - reflexivity.
  - simpl. auto.
  - reflexivity.
  - reflexivity.
Defined.

Lemma processImgs_keeps_key_unique_witness :
  NoDup (map fst (snd (processImgs plain_digest root_a_b
                         ["/root/a.png"; "/root/b.png"] [("02", "thing")]))).
Proof.
  apply (processImgs_keeps_key_unique plain_digest root_a_b
           ["/root/a.png"; "/root/b.png"] [("02", "thing")]).
  repeat constructor; simpl; intuition.
Defined.

Lemma processImgs_rows_provenance_witness :
  In ("01", "thing") [("02", "cat")] \/
  exists f, In f ["/root/a.png"; "/root/b.png"] /\ isImg f = true /\
            genHash plain_digest root_a_b f = Ok (fst ("01", "thing")) /\
            snd ("01", "thing") = classifyImg f.
Proof.
  apply (processImgs_rows_provenance plain_digest root_a_b
           ["/root/a.png"; "/root/b.png"] [("02", "cat")] ("01", "thing")).
  simpl. auto.
Defined.

(** ** The store layer on values without a quote *)





(** ** The Reconciler as a whole *)

Lemma dict_has_In (k : string) (d : classDict) :
  dict_has k d = true <-> In k (map fst d).
Proof.
  unfold dict_has. rewrite existsb_exists, in_map_iff. split.
  - intros (e & He & E). apply String.eqb_eq in E. now exists e.
  - intros (e & E & He). exists e. split; [exact He|]. subst k. apply String.eqb_refl.
Qed.

Lemma dict_append_keys (k p : string) (d : classDict) :
  map fst (dict_append k p d) = map fst d.
Proof.
  induction d as [|[k0 l] d IH]; [reflexivity|].
  cbn [dict_append]. destruct (String.eqb k0 k); [reflexivity|].
  cbn [map fst]. now rewrite IH.
Qed.

Lemma after_row_keys_unique (c : string) (r : option string) (d : classDict) :
  NoDup (map fst d) -> NoDup (map fst (after_row c r d)).
Proof.
  intros Hnd. unfold after_row.
  assert (H1 : NoDup (map fst (if negb (dict_has c d) then dict_new_key c d else d))).
  { destruct (dict_has c d) eqn:Hc; cbn [negb]; [exact Hnd|].
    unfold dict_new_key. rewrite map_app. simpl.
    apply (Permutation_NoDup (Permutation_cons_append (map fst d) c)).
    constructor; [|exact Hnd]. intros Hin. apply dict_has_In in Hin. congruence. }
  destruct r as [p|]; [|exact H1].
  destruct (String.eqb p EmptyString); [exact H1|].
  now rewrite dict_append_keys.
Qed.

Lemma dict_append_entries (c p k : string) (l : list string) (d : classDict) :
  In (k, l) (dict_append c p d) ->
  In (k, l) d \/ (k = c /\ exists l0, In (k, l0) d /\ l = (l0 ++ [p])%list).
Proof.
  induction d as [|[k0 l0] d IH]; [intros []|].
  cbn [dict_append]. destruct (String.eqb k0 c) eqn:E.
  - apply String.eqb_eq in E. subst k0. intros [H|H].
    + injection H as <- <-. right. split; [reflexivity|]. exists l0. split; [now left|reflexivity].
    + left. now right.
  - intros [H|H]; [left; now left|].
    destruct (IH H) as [H'|(-> & l1 & H1 & ->)]; [left; now right|].
    right. split; [reflexivity|]. exists l1. split; [now right|reflexivity].
Qed.

Lemma listed_after_row_inv (c : string) (r : option string) (d : classDict) (k p : string) :
  listed k p (after_row c r d) -> listed k p d \/ (k = c /\ r = Some p).
Proof.
  unfold after_row.
  set (d1 := if negb (dict_has c d) then dict_new_key c d else d).
  assert (H1 : listed k p d1 -> listed k p d).
  { unfold d1. destruct (negb (dict_has c d)); [|auto].
    intros (l & Hl & Hp). unfold dict_new_key in Hl.
    apply in_app_or in Hl as [Hl|[Hl|[]]]; [now exists l|].
    injection Hl as <- <-. destruct Hp. }
  destruct r as [q|]; [|auto].
  destruct (String.eqb q EmptyString); [auto|].
  intros (l & Hl & Hp). apply dict_append_entries in Hl as [Hl|(-> & l0 & Hl0 & ->)].
  - left. apply H1. now exists l.
  - apply in_app_or in Hp as [Hp|[<-|[]]]; [|now right].
    left. apply H1. now exists l0.
Qed.

Lemma dict_append_keeps (c q k p : string) (d : classDict) :
  listed k p d -> listed k p (dict_append c q d).
Proof.
  intros (l & Hl & Hp). induction d as [|[k0 l0] d IH]; [destruct Hl|].
  cbn [dict_append]. destruct (String.eqb k0 c) eqn:E.
  - destruct Hl as [Hl|Hl].
    + injection Hl as -> ->. exists (l ++ [q])%list. split; [now left|].
      apply in_or_app. now left.
    + exists l. split; [now right|exact Hp].
  - destruct Hl as [Hl|Hl].
    + exists l. split; [now left|exact Hp].
    + destruct (IH Hl) as (l' & Hl' & Hp'). exists l'. split; [now right|exact Hp'].
Qed.

Lemma dict_append_lists (c q : string) (d : classDict) :
  dict_has c d = true -> listed c q (dict_append c q d).
Proof.
  induction d as [|[k0 l0] d IH]; [discriminate|].
  cbn [dict_has existsb fst dict_append]. destruct (String.eqb k0 c) eqn:E.
  - intros _. apply String.eqb_eq in E. subst k0.
    exists (l0 ++ [q])%list. split; [now left|]. apply in_or_app. right. now left.
  - cbn [orb]. intros H. destruct (IH H) as (l & Hl & Hp).
    exists l. split; [now right|exact Hp].
Qed.

Lemma listed_after_row (c : string) (r : option string) (d : classDict) (k p : string) :
  listed k p d -> listed k p (after_row c r d).
Proof.
  intros H. unfold after_row.
  assert (H1 : listed k p (if negb (dict_has c d) then dict_new_key c d else d)).
  { destruct (negb (dict_has c d)); [|exact H].
    destruct H as (l & Hl & Hp). exists l. split; [|exact Hp].
    unfold dict_new_key. apply in_or_app. now left. }
  destruct r as [q|]; [|exact H1].
  destruct (String.eqb q EmptyString); [exact H1|].
  now apply dict_append_keeps.
Qed.

Lemma listed_after_row_new (c p : string) (d : classDict) :
  p <> EmptyString -> listed c p (after_row c (Some p) d).
Proof.
  intros Hp. unfold after_row. apply String.eqb_neq in Hp. rewrite Hp.
  apply dict_append_lists.
  destruct (dict_has c d) eqn:Hc; cbn [negb]; [exact Hc|apply dict_has_new_key].
Qed.

Lemma isImg_nonempty (p : string) : isImg p = true -> p <> EmptyString.
Proof. intros H ->. discriminate. Qed.

Section ReconcilerWhole.

Variable md5 : list Byte.byte -> list Byte.byte.
Variable fs : filesystem.

Lemma fileByClass_loop_sound (conn : database) (files : list string) (d d' : classDict) :
  fileByClass_loop md5 fs (fetched conn) files d = Ok d' ->
  (NoDup (map fst d) -> NoDup (map fst d')) /\
  (forall k p, listed k p d -> listed k p d') /\
  (forall k p, listed k p d' ->
     listed k p d \/
     (In p files /\ isImg p = true /\
      exists h, In (h, k) conn /\ genHash md5 fs p = Ok h)).
Proof.
  revert files d; induction conn as [|[h c] conn IH]; intros files d.
  - simpl. intros [= <-]. repeat split; auto.
  - cbn [fetched map fst snd]. rewrite fileByClass_loop_row.
    destruct (detectFileWithHash md5 fs files h) as [[r files']|e] eqn:Hd; [|discriminate].
    intros Hl. destruct (IH _ _ Hl) as (Hnd & Hmono & Hsound).
    repeat split.
    + intros H. now apply Hnd, after_row_keys_unique.
    + intros k p H. now apply Hmono, listed_after_row.
    + intros k p H. destruct (Hsound k p H) as [H'|(Hin & Hi & h' & Hrow & Hg)].
      * apply listed_after_row_inv in H' as [H'|[-> ->]]; [now left|right].
        apply detect_Some_inv in Hd as (sk & -> & _ & Hi & Hg).
        repeat split; [apply in_or_app; right; now left|exact Hi|].
        exists h. split; [now left|exact Hg].
      * right. split; [|split; [exact Hi|exists h'; split; [now right|exact Hg]]].
        destruct r as [q|].
        -- apply detect_Some_inv in Hd as (sk & -> & _).
           apply in_or_app. right. now right.
        -- apply detect_None_inv in Hd as [-> _]. destruct Hin.
Qed.

Lemma fileByClass_loop_raises (conn : database) (files : list string) (d : classDict) (e : exn) :
  fileByClass_loop md5 fs (fetched conn) files d = Raise e ->
  exists f, In f files /\ isImg f = true /\ genHash md5 fs f = Raise e.
Proof.
  revert files d; induction conn as [|[h c] conn IH]; intros files d; [discriminate|].
  cbn [fetched map fst snd]. rewrite fileByClass_loop_row.
  destruct (detectFileWithHash md5 fs files h) as [[r files']|e'] eqn:Hd.
  - intros Hl. destruct (IH _ _ Hl) as (f & Hin & Hf). exists f. split; [|exact Hf].
    destruct r as [q|].
    + apply detect_Some_inv in Hd as (sk & -> & _).
      apply in_or_app. right. now right.
    + apply detect_None_inv in Hd as [-> _]. destruct Hin.
  - intros [= ->]. apply detect_Raise_inv in Hd as (sk & f & post & -> & _ & Hf).
    exists f. split; [|exact Hf]. apply in_or_app. right. now left.
Qed.

(** X14. The keys of the returned dictionary are the labels of the table,
    each once. *)
Theorem fileByClass_keys (files : list string) (tableID : string)
    (conn conn' : database) (d : classDict) :
  fileByClass md5 fs files tableID conn = (Ok d, conn') ->
  NoDup (map fst d) /\
  forall k, In k (map fst d) <-> exists h, In (h, k) conn.
Proof.
  intros H. apply fileByClass_Ok in H as [_ H]. split.
  - apply (fileByClass_loop_sound _ _ _ _ H). constructor.
  - intros k. apply fileByClass_loop_paths in H as (_ & _ & Hkeys).
    rewrite <- dict_has_In, Hkeys. cbn [dict_has existsb orb].
    rewrite existsb_exists. split.
    + intros ([h c] & Hin & E). apply String.eqb_eq in E. simpl in E. subst c. now exists h.
    + intros (h & Hin). exists (h, k). split; [exact Hin|apply String.eqb_refl].
Qed.

(** X15. A path listed under a label is an image path the generator
    yielded, and its content hashes to a hash stored under that label. *)
Theorem fileByClass_lists_matches (files : list string) (tableID : string)
    (conn conn' : database) (d : classDict) (k p : string) :
  fileByClass md5 fs files tableID conn = (Ok d, conn') ->
  listed k p d ->
  In p files /\ isImg p = true /\
  exists h, In (h, k) conn /\ genHash md5 fs p = Ok h.
Proof.
  intros H Hl. apply fileByClass_Ok in H as [_ H].
  apply fileByClass_loop_sound in H as (_ & _ & Hs).
  destruct (Hs k p Hl) as [(l & [] & _)|Hp]. exact Hp.
Qed.

(** X16. What the Reconciler raises is what reading one of the image files
    of the generator raises; the table is as it was. *)
Theorem fileByClass_raises_from_read (files : list string) (conn conn' : database) (e : exn) :
  fileByClass md5 fs files "media" conn = (Raise e, conn') ->
  conn' = conn /\
  exists f, In f files /\ isImg f = true /\ genHash md5 fs f = Raise e.
Proof.
  rewrite fileByClass_media. intros H. injection H as H <-. split; [reflexivity|].
  now apply fileByClass_loop_raises in H.
Qed.

(** X17. The first record of the table is resolved to the first image file
    of the generator with its hash, wherever that file lies, when the call
    returns. *)
Theorem fileByClass_resolves_first_record (files : list string) (h c : string)
    (conn conn' : database) (d : classDict)
    (skipped : list string) (p : string) (rest : list string) :
  files = (skipped ++ p :: rest)%list ->
  Forall (passed_over md5 fs h) skipped ->
  isImg p = true -> genHash md5 fs p = Ok h ->
  fileByClass md5 fs files "media" ((h, c) :: conn) = (Ok d, conn') ->
  listed c p d.
Proof.
  intros -> Hsk Hi Hg H. apply fileByClass_Ok in H as [_ H].
  cbn [fetched map fst snd] in H. rewrite fileByClass_loop_row in H.
  rewrite (detect_passes_over md5 fs skipped _ h Hsk) in H.
  rewrite (detect_hit md5 fs p rest h Hi Hg) in H.
  apply fileByClass_loop_sound in H as (_ & Hmono & _).
  apply Hmono, listed_after_row_new. now apply isImg_nonempty.
Qed.

End ReconcilerWhole.

Lemma fileByClass_keys_witness :
  NoDup (map fst [("thing", ["/root/a.png"; "/root/b.png"])]) /\
  forall k, In k (map fst [("thing", ["/root/a.png"; "/root/b.png"])])
            <-> exists h, In (h, k) [("01", "thing"); ("02", "thing")].
Proof.
  apply (fileByClass_keys plain_digest root_a_b ["/root/a.png"; "/root/b.png"] "media"
           [("01", "thing"); ("02", "thing")] [("01", "thing"); ("02", "thing")]).
  reflexivity.
Defined.

Lemma fileByClass_lists_matches_witness :
  In "/root/b.png" ["/root/a.png"; "/root/b.png"] /\ isImg "/root/b.png" = true /\
  exists h, In (h, "thing") [("01", "thing"); ("02", "thing")] /\
            genHash plain_digest root_a_b "/root/b.png" = Ok h.
Proof.
  apply (fileByClass_lists_matches plain_digest root_a_b ["/root/a.png"; "/root/b.png"]
           "media" [("01", "thing"); ("02", "thing")] [("01", "thing"); ("02", "thing")]
           [("thing", ["/root/a.png"; "/root/b.png"])]).
  - reflexivity.
  - exists ["/root/a.png"; "/root/b.png"]. simpl. auto.
Defined.

Lemma fileByClass_raises_from_read_witness :
  [("03", "thing")] = [("03", "thing")] /\
  exists f, In f ["/root/a.png"; "/root/b.png"; "/root/c.png"] /\ isImg f = true /\
            genHash plain_digest root_b_unreadable f = Raise (PermissionError "/root/b.png").
Proof.
  apply (fileByClass_raises_from_read plain_digest root_b_unreadable
           ["/root/a.png"; "/root/b.png"; "/root/c.png"] [("03", "thing")] [("03", "thing")]).
  reflexivity.
Defined.

Lemma fileByClass_resolves_first_record_witness :
  listed "thing" "/root/moved/b.png" [("thing", ["/root/moved/b.png"])].
Proof.
  apply (fileByClass_resolves_first_record plain_digest
           (disk [("/root/a.png", RegularFile [Byte.x01]);
                  ("/root/moved/b.png", RegularFile [Byte.x02])])
           ["/root/a.png"; "/root/moved/b.png"] "02" "thing" [] [("02", "thing")]
           [("thing", ["/root/moved/b.png"])]
           ["/root/a.png"] "/root/moved/b.png" []).
  - reflexivity.
  - constructor; [|constructor]. intros _. exists "01". split; [reflexivity|discriminate].
  - reflexivity.
  - reflexivity.
  - reflexivity.
Defined.

(** ** A run of [classifyPath] *)

Section Run.

Variable md5 : list Byte.byte -> list Byte.byte.
Variable fs : filesystem.

(** The row the Indexer writes for a file. *)
Let row_of (f : string) : string * string := (digest_at md5 fs f, classifyImg f).

(** All of [files] are image paths that can be read. *)
Let readable_images (files : list string) : Prop :=
  forall f, In f files -> isImg f = true /\ exists h, genHash md5 fs f = Ok h.

Lemma digest_at_Ok (f h : string) : genHash md5 fs f = Ok h -> digest_at md5 fs f = h.
Proof. unfold digest_at. now intros ->. Qed.

Lemma first_seen_fresh (seen files : list string) (g : string) :
  In g (first_seen md5 fs seen files) ->
  PyStr.elem (digest_at md5 fs g) seen = false /\ In g files.
Proof.
  revert seen; induction files as [|f files IH]; intros seen; [intros []|].
  cbn [first_seen]. destruct (genHash md5 fs f) as [h|e] eqn:Hg.
  - destruct (PyStr.elem h seen) eqn:Hs.
    + intros H. destruct (IH _ H). split; [assumption|now right].
    + intros [<-|H].
      * rewrite (digest_at_Ok f h Hg). split; [exact Hs|now left].
      * destruct (IH _ H) as [He Hin]. split; [|now right].
        unfold PyStr.elem in He. cbn [existsb] in He.
        now apply orb_false_iff in He.
  - intros H. destruct (IH _ H). split; [assumption|now right].
Qed.

Lemma processImgs_first_seen (files : list string) (conn : database) (seen : list string) :
  readable_images files ->
  (forall h, PyStr.elem h seen = Sqlite.has_hash h conn) ->
  processImgs md5 fs files conn
  = (Ok tt, (conn ++ map row_of (first_seen md5 fs seen files))%list).
Proof.
  revert conn seen; induction files as [|f files IH]; intros conn seen Hr Hs.
  - simpl. now rewrite app_nil_r.
  - destruct (Hr f (or_introl eq_refl)) as (Hi & h & Hg).
    assert (Hr' : readable_images files) by (intros g Hin; apply Hr; now right).
    cbn [first_seen]. rewrite Hg, Hs.
    destruct (Sqlite.has_hash h conn) eqn:Hk.
    + rewrite (processImgs_known md5 fs f _ conn h Hi Hg Hk). now apply IH.
    + rewrite (processImgs_new md5 fs f _ conn h Hi Hg Hk).
      rewrite (IH _ (h :: seen) Hr').
      * cbn [map]. change (row_of f) with (digest_at md5 fs f, classifyImg f).
        rewrite (digest_at_Ok f h Hg). now rewrite <- app_assoc.
      * intros h'. rewrite has_hash_app. unfold PyStr.elem. cbn [existsb].
        fold (PyStr.elem h' seen). rewrite Hs. simpl.
        rewrite orb_false_r, (String.eqb_sym h h'). apply orb_comm.
Qed.

Lemma fileByClass_loop_first_seen (files seen : list string) (d : classDict) :
  readable_images files ->
  fileByClass_loop md5 fs (fetched (map row_of (first_seen md5 fs seen files))) files d
  = Ok (fold_left (fun d f => after_row (classifyImg f) (Some f) d)
          (first_seen md5 fs seen files) d).
Proof.
  revert seen d; induction files as [|f files IH]; intros seen d Hr; [reflexivity|].
  destruct (Hr f (or_introl eq_refl)) as (Hi & h & Hg).
  assert (Hr' : readable_images files) by (intros g Hin; apply Hr; now right).
  cbn [first_seen]. rewrite Hg. destruct (PyStr.elem h seen) eqn:Hs.
  - rewrite <- (IH seen d Hr').
    destruct (first_seen md5 fs seen files) as [|g F] eqn:EF; [reflexivity|].
    cbn [map fetched].
    change (row_of g) with (digest_at md5 fs g, classifyImg g). cbn [fst snd].
    rewrite !fileByClass_loop_row.
    rewrite (detect_miss md5 fs f files h _ Hi Hg); [reflexivity|].
    intros E. destruct (first_seen_fresh seen files g) as [Hfresh _].
    { rewrite EF. now left. }
    rewrite <- E in Hfresh. congruence.
  - cbn [map fetched fold_left].
    change (row_of f) with (digest_at md5 fs f, classifyImg f). cbn [fst snd].
    rewrite fileByClass_loop_row, (digest_at_Ok f h Hg).
    rewrite (detect_hit md5 fs f files h Hi Hg).
    apply IH, Hr'.
Qed.

Lemma after_row_stub_next (l : list string) (f : string) :
  f <> EmptyString ->
  after_row (classifyImg f) (Some f) [("thing", l)] = [("thing", (l ++ [f])%list)].
Proof.
  intros Hf. apply String.eqb_neq in Hf. unfold after_row, classifyImg.
  change (dict_has "thing" [("thing", l)]) with true. cbn [negb]. rewrite Hf. reflexivity.
Qed.

Lemma after_row_stub_first (f : string) :
  f <> EmptyString ->
  after_row (classifyImg f) (Some f) [] = [("thing", [f])].
Proof.
  intros Hf. apply String.eqb_neq in Hf. unfold after_row, classifyImg.
  change (dict_has "thing" []) with false. cbn [negb]. rewrite Hf. reflexivity.
Qed.

Lemma fold_one_class (F l : list string) :
  (forall f, In f F -> f <> EmptyString) ->
  fold_left (fun d f => after_row (classifyImg f) (Some f) d) F [("thing", l)]
  = [("thing", (l ++ F)%list)].
Proof.
  revert l; induction F as [|f F IH]; intros l Hne.
  - simpl. now rewrite app_nil_r.
  - cbn [fold_left]. rewrite after_row_stub_next by (apply Hne; now left).
    rewrite IH by (intros g Hg; apply Hne; now right).
    now rewrite <- app_assoc.
Qed.

Lemma fold_from_empty (F : list string) :
  (forall f, In f F -> f <> EmptyString) ->
  fold_left (fun d f => after_row (classifyImg f) (Some f) d) F [] = one_class F.
Proof.
  destruct F as [|f F]; intros Hne; [reflexivity|].
  cbn [fold_left]. rewrite after_row_stub_first by (apply Hne; now left).
  rewrite fold_one_class by (intros g Hg; apply Hne; now right).
  reflexivity.
Qed.

Lemma imgPaths_readable (home : string) :
  (forall f, In f (imgPaths fs home) -> exists data, node_at fs f = RegularFile data) ->
  readable_images (imgPaths fs home).
Proof.
  intros H f Hin. split.
  - unfold imgPaths in Hin. now apply filter_In in Hin.
  - apply genHash_regular. now apply H.
Qed.

(** X18. Started on an empty table with every enumerated image file
    readable, [classifyPath] stores one row per content, in the order the
    contents are first met, and lists under the one label the first file of
    each content, in that order; with no image file it returns the empty
    dictionary. *)
Theorem classifyPath_fresh (home : string) :
  (forall f, In f (imgPaths fs home) -> exists data, node_at fs f = RegularFile data) ->
  classifyPath md5 fs home []
  = Ok (one_class (first_seen md5 fs [] (imgPaths fs home)),
        map (fun f => (digest_at md5 fs f, classifyImg f))
          (first_seen md5 fs [] (imgPaths fs home))).
Proof.
  intros H. apply imgPaths_readable in H.
  unfold classifyPath, bind. rewrite createTable_media.
  rewrite (processImgs_first_seen _ [] [] H) by reflexivity.
  cbn [app]. rewrite fileByClass_media.
  fold row_of. rewrite (fileByClass_loop_first_seen _ [] [] H).
  rewrite fold_from_empty; [reflexivity|].
  intros f Hf. apply first_seen_fresh in Hf as [_ Hf].
  apply isImg_nonempty. now apply H.
Qed.

Lemma first_seen_all (files seen : list string) :
  readable_images files ->
  NoDup (map (digest_at md5 fs) files) ->
  (forall f, In f files -> PyStr.elem (digest_at md5 fs f) seen = false) ->
  first_seen md5 fs seen files = files.
Proof.
  revert seen; induction files as [|f files IH]; intros seen Hr Hnd Hs; [reflexivity|].
  destruct (Hr f (or_introl eq_refl)) as (Hi & h & Hg).
  cbn [first_seen]. rewrite Hg.
  pose proof (Hs f (or_introl eq_refl)) as Hf. rewrite (digest_at_Ok f h Hg) in Hf.
  rewrite Hf. f_equal. cbn [map] in Hnd. apply NoDup_cons_iff in Hnd as [Hnot Hnd].
  apply IH; [intros g Hin; apply Hr; now right|exact Hnd|].
  intros g Hin. unfold PyStr.elem. cbn [existsb]. fold (PyStr.elem (digest_at md5 fs g) seen).
  rewrite (Hs g (or_intror Hin)), orb_false_r.
  apply String.eqb_neq. intros E. apply Hnot. rewrite (digest_at_Ok f h Hg), <- E.
  now apply in_map.
Qed.

(** X19. Started on an empty table, with every enumerated image file
    readable and no two of them of the same content, [classifyPath] lists
    every one of them, in the order of the traversal. *)
Theorem classifyPath_fresh_distinct (home : string) :
  (forall f, In f (imgPaths fs home) -> exists data, node_at fs f = RegularFile data) ->
  NoDup (map (digest_at md5 fs) (imgPaths fs home)) ->
  classifyPath md5 fs home []
  = Ok (one_class (imgPaths fs home),
        map (fun f => (digest_at md5 fs f, classifyImg f)) (imgPaths fs home)).
Proof.
  intros H Hnd. apply imgPaths_readable in H.
  assert (E : first_seen md5 fs [] (imgPaths fs home) = imgPaths fs home)
    by (apply first_seen_all; [exact H|exact Hnd|reflexivity]).
  unfold classifyPath, bind. rewrite createTable_media.
  rewrite (processImgs_first_seen _ [] [] H) by reflexivity.
  cbn [app]. rewrite fileByClass_media.
  fold row_of. rewrite (fileByClass_loop_first_seen _ [] [] H).
  rewrite fold_from_empty; [now rewrite E|].
  intros f Hf. apply first_seen_fresh in Hf as [_ Hf].
  apply isImg_nonempty. now apply H.
Qed.

(** X20. [classifyPath] returns exactly when every enumerated image path
    is a regular file that can be read. *)
Theorem classifyPath_returns_iff (home : string) (stored : database) :
  (exists r, classifyPath md5 fs home stored = Ok r)
  <-> forall f, In f (imgPaths fs home) -> exists data, node_at fs f = RegularFile data.
Proof.
  unfold classifyPath, bind. rewrite createTable_media. split.
  - intros [r Hr] f Hin. apply (proj1 (genHash_regular md5 fs f)).
    destruct (genHash md5 fs f) as [h|e0] eqn:Hg; [now exists h|].
    assert (Hi : isImg f = true) by (unfold imgPaths in Hin; now apply filter_In in Hin).
    destruct (processImgs_aborts md5 fs _ stored f e0 Hin Hi Hg) as (e & conn' & E).
    rewrite E in Hr. discriminate.
  - intros H. apply imgPaths_readable in H.
    rewrite (processImgs_first_seen _ stored (map fst stored) H).
    + rewrite fileByClass_media.
      destruct (fileByClass_loop_returns md5 fs
                  (stored ++ map row_of (first_seen md5 fs (map fst stored) (imgPaths fs home)))%list
                  (imgPaths fs home) []) as [d ->]; [|eauto].
      intros f Hin _. now apply H.
    + intros h. unfold PyStr.elem, Sqlite.has_hash.
      induction stored as [|r0 st IHst]; [reflexivity|].
      cbn [map existsb]. now rewrite IHst, String.eqb_sym.
Qed.

(** X21. A call of [classifyPath] that returned, made again over the same
    directory from the table it left, returns the same dictionary and
    leaves the table as it is; and the table it left starts with the rows it
    found. *)
Theorem classifyPath_again (home : string) (stored stored' : database) (d : classDict) :
  classifyPath md5 fs home stored = Ok (d, stored') ->
  classifyPath md5 fs home stored' = Ok (d, stored') /\
  exists added, stored' = (stored ++ added)%list.
Proof.
  unfold classifyPath, bind. rewrite !createTable_media.
  destruct (processImgs md5 fs (imgPaths fs home) stored) as [[[]|e] conn1] eqn:E1;
    [|discriminate].
  rewrite fileByClass_media.
  destruct (fileByClass_loop md5 fs (fetched conn1) (imgPaths fs home) []) as [d1|e] eqn:E2;
    [|discriminate].
  intros [= -> ->]. split.
  - rewrite (processImgs_again md5 fs (imgPaths fs home) stored stored')
      by (rewrite E1; auto).
    rewrite E1. cbn [fst]. now rewrite fileByClass_media, E2.
  - destruct (processImgs_appends md5 fs (imgPaths fs home) stored) as (added & Ha & _).
    rewrite E1 in Ha. now exists added.
Qed.

End Run.

Lemma classifyPath_fresh_witness :
  classifyPath plain_digest
    (disk [("/root/a.png", RegularFile [Byte.x01]); ("/root/copy.png", RegularFile [Byte.x01]);
           ("/root/b.png", RegularFile [Byte.x02])]) "/root" []
  = Ok (one_class ["/root/a.png"; "/root/b.png"], [("01", "thing"); ("02", "thing")]).
Proof.
  apply (classifyPath_fresh plain_digest
           (disk [("/root/a.png", RegularFile [Byte.x01]);
                  ("/root/copy.png", RegularFile [Byte.x01]);
                  ("/root/b.png", RegularFile [Byte.x02])]) "/root").
  intros f [<-|[<-|[<-|[]]]]; eexists; reflexivity.
Defined.

Lemma classifyPath_fresh_distinct_witness :
  classifyPath plain_digest root_a_b "/root" []
  = Ok (one_class ["/root/a.png"; "/root/b.png"], [("01", "thing"); ("02", "thing")]).
Proof.
  apply (classifyPath_fresh_distinct plain_digest root_a_b "/root").
  - intros f [<-|[<-|[]]]; eexists; reflexivity.
  - repeat constructor; simpl; intuition discriminate.
Defined.

Lemma classifyPath_again_witness :
  classifyPath plain_digest root_a_b "/root" [("02", "thing"); ("01", "thing")]
  = Ok ([("thing", ["/root/b.png"])], [("02", "thing"); ("01", "thing")]) /\
  exists added, [("02", "thing"); ("01", "thing")] = ([("02", "thing")] ++ added)%list.
Proof.
  apply (classifyPath_again plain_digest root_a_b "/root" [("02", "thing")]).
  reflexivity.
Defined.

(** ** [StreamToLogger.write] *)

Ltac decide_comparisons :=
  repeat match goal with
         | |- context [(?a <=? ?b)%N] =>
             first [ replace (a <=? b)%N with true by (symmetry; apply N.leb_le; lia)
                   | replace (a <=? b)%N with false by (symmetry; apply N.leb_gt; lia) ]
         | |- context [(?a =? ?b)%N] =>
             first [ replace (a =? b)%N with true by (symmetry; apply N.eqb_eq; lia)
                   | replace (a =? b)%N with false by (symmetry; apply N.eqb_neq; lia) ]
         end.

Lemma linebreak_isspace (c : N) : Log.islinebreak c = true -> Log.isspace c = true.
Proof.
  unfold Log.islinebreak. intros H.
  repeat (apply orb_true_iff in H as [H|H]);
    repeat (apply andb_true_iff in H as [? ?]);
    repeat match goal with
           | H : (_ <=? _)%N = true |- _ => apply N.leb_le in H
           | H : (_ =? _)%N = true |- _ => apply N.eqb_eq in H
           end;
    unfold Log.isspace; decide_comparisons; reflexivity.
Qed.

Lemma rstrip_nil_iff (s : Log.text) : Log.rstrip s = [] <-> forallb Log.isspace s = true.
Proof.
  induction s as [|c r IH]; [now split|].
  cbn [Log.rstrip forallb]. rewrite andb_true_iff, <- IH.
  destruct (Log.rstrip r) as [|x r'].
  - destruct (Log.isspace c); intuition congruence.
  - intuition congruence.
Qed.

Lemma rstrip_idem (s : Log.text) : Log.rstrip (Log.rstrip s) = Log.rstrip s.
Proof.
  induction s as [|c r IH]; [reflexivity|].
  cbn [Log.rstrip]. destruct (Log.rstrip r) as [|x r'] eqn:E.
  - destruct (Log.isspace c) eqn:Hc; [reflexivity|].
    cbn [Log.rstrip]. now rewrite Hc.
  - change (Log.rstrip (c :: x :: r')) with
      (match Log.rstrip (x :: r') with
       | [] => if Log.isspace c then [] else [c]
       | r'' => c :: r''
       end).
    now rewrite IH.
Qed.

Lemma rstrip_app_blank (s ws : Log.text) :
  forallb Log.isspace ws = true -> Log.rstrip (s ++ ws)%list = Log.rstrip s.
Proof.
  intros H. induction s as [|c r IH].
  - now apply rstrip_nil_iff.
  - cbn [app Log.rstrip]. now rewrite IH.
Qed.

Lemma rstrip_Forall (P : N -> Prop) (s : Log.text) :
  Forall P s -> Forall P (Log.rstrip s).
Proof.
  induction 1 as [|c r Hc _ IH]; [constructor|].
  cbn [Log.rstrip]. destruct (Log.rstrip r) as [|x r'].
  - destruct (Log.isspace c); constructor; [exact Hc|constructor].
  - now constructor.
Qed.

Lemma splitlines_no_break (s : Log.text) :
  Forall (Forall (fun c => Log.islinebreak c = false)) (Log.splitlines s).
Proof.
  assert (H : forall n s, (List.length s <= n)%nat ->
            Forall (Forall (fun c => Log.islinebreak c = false)) (Log.splitlines s)).
  { induction n as [|n IH]; intros [|c r] Hlen; try (constructor; fail);
      cbn [List.length] in Hlen; [lia|].
    cbn [Log.splitlines]. destruct (Log.islinebreak c) eqn:Hc.
    - constructor; [constructor|].
      destruct r as [|c' r']; [constructor|].
      cbn [List.length] in Hlen.
      destruct ((c =? 13) && (c' =? 10))%N; apply IH; cbn [List.length]; lia.
    - pose proof (IH r ltac:(lia)) as Hr.
      destruct (Log.splitlines r) as [|line lines].
      + repeat constructor. exact Hc.
      + inversion Hr; subst. constructor; [now constructor|assumption]. }
  exact (H (List.length s) s (le_n _)).
Qed.

Lemma splitlines_nil_iff (s : Log.text) : Log.splitlines s = [] <-> s = [].
Proof.
  split; [|now intros ->].
  destruct s as [|c r]; [reflexivity|].
  cbn [Log.splitlines]. destruct (Log.islinebreak c); [discriminate|].
  destruct (Log.splitlines r); discriminate.
Qed.

(** X22. Every message [write] hands to the logger goes out at the level of
    the stream, holds no line break and does not end in a blank. *)
Theorem write_messages_clean (self : Log.StreamToLogger) (buf : Log.text)
    (level : Z) (message : Log.text) :
  In (level, message) (Log.write self buf) ->
  level = Log.log_level self /\
  Forall (fun c => Log.islinebreak c = false) message /\
  Log.rstrip message = message.
Proof.
  unfold Log.write. intros H. apply in_map_iff in H as (line & E & Hin).
  injection E as <- <-. split; [reflexivity|]. split; [|apply rstrip_idem].
  apply rstrip_Forall.
  pose proof (splitlines_no_break (Log.rstrip buf)) as Hall.
  rewrite Forall_forall in Hall. now apply Hall.
Qed.

Lemma write_messages_clean_witness :
  20 = Log.log_level {| Log.log_level := 20; Log.linebuf := [] |} /\
  Forall (fun c => Log.islinebreak c = false) [98%N] /\
  Log.rstrip [98%N] = [98%N].
Proof.
  apply (write_messages_clean {| Log.log_level := 20; Log.linebuf := [] |}
           [97; 10; 98; 32; 13; 10]%N 20 [98%N]).
  simpl. auto.
Defined.

(** X23. [write] makes no call exactly when the text is blank, the empty
    text included; and blanks at the end of the text change nothing. *)
Theorem write_blank (self : Log.StreamToLogger) (buf ws : Log.text) :
  (Log.write self buf = [] <-> forallb Log.isspace buf = true) /\
  (forallb Log.isspace ws = true ->
   Log.write self (buf ++ ws)%list = Log.write self buf).
Proof.
  unfold Log.write. split.
  - rewrite <- rstrip_nil_iff, <- splitlines_nil_iff. split.
    + intros H. now apply map_eq_nil in H.
    + now intros ->.
  - intros H. now rewrite rstrip_app_blank.
Qed.

Lemma rstrip_snoc (s : Log.text) (c : N) :
  Log.isspace c = false -> Log.rstrip (s ++ [c])%list = (s ++ [c])%list.
Proof.
  intros Hc. induction s as [|x r IH].
  - cbn [app Log.rstrip]. now rewrite Hc.
  - cbn [app Log.rstrip]. rewrite IH.
    destruct (r ++ [c])%list eqn:E; [destruct r; discriminate|reflexivity].
Qed.

Lemma rstrip_ends (s : Log.text) :
  Log.rstrip s = [] \/
  exists t c, Log.rstrip s = (t ++ [c])%list /\ Log.isspace c = false.
Proof.
  induction s as [|x r IH]; [now left|].
  cbn [Log.rstrip]. destruct IH as [->|(t & c & -> & Hc)].
  - destruct (Log.isspace x) eqn:Hx; [now left|right]. now exists [], x.
  - right. exists (x :: t), c. split; [|exact Hc]. cbn [app].
    destruct (t ++ [c])%list eqn:E; [destruct t; discriminate|reflexivity].
Qed.

Lemma splitlines_last (t : Log.text) (c : N) :
  Log.islinebreak c = false ->
  exists lines line, Log.splitlines (t ++ [c])%list = (lines ++ [(line ++ [c])%list])%list.
Proof.
  intros Hc.
  assert (H : forall n t, (List.length t <= n)%nat ->
            exists lines line,
              Log.splitlines (t ++ [c])%list = (lines ++ [(line ++ [c])%list])%list).
  { induction n as [|n IH]; intros [|x r] Hlen; cbn [List.length] in Hlen; try lia.
    - exists [], []. cbn [app Log.splitlines]. now rewrite Hc.
    - exists [], []. cbn [app Log.splitlines]. now rewrite Hc.
    - cbn [app Log.splitlines]. destruct (Log.islinebreak x) eqn:Hx.
      + destruct r as [|y r2].
        * cbn [app]. assert (E : ((x =? 13) && (c =? 10))%N = false).
          { destruct (N.eqb_spec c 10) as [->|_]; [discriminate|apply andb_false_r]. }
          rewrite E. cbn [Log.splitlines]. rewrite Hc. now exists [[]], [].
        * cbn [app List.length] in Hlen |- *.
          destruct ((x =? 13) && (y =? 10))%N.
          -- destruct (IH r2 ltac:(lia)) as (lines & line & ->).
             now exists ([] :: lines), line.
          -- destruct (IH (y :: r2) ltac:(cbn [List.length]; lia)) as (lines & line & E).
             cbn [app] in E. rewrite E. now exists ([] :: lines), line.
      + destruct (IH r ltac:(lia)) as (lines & line & ->).
        destruct lines as [|l1 ls]; cbn [app].
        * now exists [], (x :: line).
        * now exists ((x :: l1) :: ls), line. }
  exact (H (List.length t) t (le_n _)).
Qed.

(** X24. When the text is not blank, the last call of [write] carries a
    message that ends in the last character of the text that is no blank. *)
Theorem write_last_message (self : Log.StreamToLogger) (buf : Log.text) :
  forallb Log.isspace buf = false ->
  exists calls message c,
    Log.write self buf = (calls ++ [(Log.log_level self, (message ++ [c])%list)])%list /\
    Log.isspace c = false /\
    exists t, Log.rstrip buf = (t ++ [c])%list.
Proof.
  intros Hb. unfold Log.write.
  destruct (rstrip_ends buf) as [E|(t & c & E & Hc)].
  - apply rstrip_nil_iff in E. congruence.
  - assert (Hl : Log.islinebreak c = false).
    { destruct (Log.islinebreak c) eqn:Hl; [|reflexivity].
      apply linebreak_isspace in Hl. congruence. }
    destruct (splitlines_last t c Hl) as (lines & line & El).
    rewrite E, El, map_app. cbn [map]. rewrite (rstrip_snoc line c Hc).
    exists (map (fun l => (Log.log_level self, Log.rstrip l)) lines), line, c.
    repeat split; [exact Hc|now exists t].
Qed.

Lemma write_last_message_witness :
  exists calls message c,
    Log.write {| Log.log_level := 20; Log.linebuf := [] |} [97; 10; 98; 99; 32; 10]%N
    = (calls ++ [(20, (message ++ [c])%list)])%list /\
    Log.isspace c = false /\
    exists t, Log.rstrip [97; 10; 98; 99; 32; 10]%N = (t ++ [c])%list.
Proof.
  apply (write_last_message {| Log.log_level := 20; Log.linebuf := [] |}
           [97; 10; 98; 99; 32; 10]%N).
  reflexivity.
Defined.

Lemma write_blank_witness :
  Log.write {| Log.log_level := 20; Log.linebuf := [] |} ([97; 98] ++ [32; 10; 9])%list%N
  = Log.write {| Log.log_level := 20; Log.linebuf := [] |} [97; 98]%N.
Proof.
  apply (write_blank {| Log.log_level := 20; Log.linebuf := [] |} [97; 98]%N [32; 10; 9]%N).
  reflexivity.
Defined.
